(** * Realtime CLI: the streaming protocol engine of [main.go]

    A shallow embedding of the event reader, the two event-queue consumers
    ([waitForEventTypeFromChan], [streamAssistantTextFromChan]) and the
    multiply-tool bridge, together with the part of Go's [encoding/json]
    and [strconv] that decides what those functions do.

    Go strings and byte slices are [string] (a sequence of 8-bit [ascii]);
    [float64] is IEEE 754 binary64 as specified by [SpecFloat];
    [map[string]any] is [gmap string any]. *)

From Stdlib Require Import ZArith String Ascii List Lia Floats.SpecFloat DecimalString.
From stdpp Require Import gmap strings list fin_maps.

Set Warnings "-register-all".
Local Open Scope string_scope.

(** ** Bytes *)

Definition byte_val (c : ascii) : Z := Z.of_N (N_of_ascii c).

Definition byte_of (z : Z) : ascii := ascii_of_N (Z.to_N z).

Definition in_range (lo hi : Z) (c : ascii) : bool :=
  (lo <=? byte_val c)%Z && (byte_val c <=? hi)%Z.

Definition quote : ascii := "034"%char.
Definition backslash : ascii := "\"%char.

(** Test inputs are written with ['] where the JSON text has a double
    quote; [js] puts the double quotes back. *)
Fixpoint js (s : string) : string :=
  match s with
  | EmptyString => EmptyString
  | String c r => String (if Ascii.eqb c "'" then quote else c) (js r)
  end.

(** ** float64 (IEEE 754 binary64) *)

Definition float64 : Type := spec_float.

Definition float64_zero : float64 := S754_zero false.

(** The float64 nearest to the integer [z] (ties to even). *)
Definition float64_of_Z (z : Z) : float64 := binary_normalize 53 1024 z 0 false.

(** [func multiply(a, b float64) float64 { return a * b }] *)
Definition multiply (a b : float64) : float64 := SFmul 53 1024 a b.

(** ** strconv.ParseFloat(s, 64) on a JSON number literal

    The literal is [-? digits (. digits)? ((e|E) (+|-)? digits)?]; its
    value is [M * 10^E] for the integer [M] spelled by all its mantissa
    digits.  The result is that value rounded to nearest, ties to even;
    a value that rounds to an infinity is a range error. *)

Definition digit_val (c : ascii) : option Z :=
  if in_range 48 57 c then Some (byte_val c - 48)%Z else None.

(** Reads a run of decimal digits: the accumulated value, how many digits
    were read, and the rest of the text. *)
Fixpoint read_digits (s : string) (acc count : Z) : Z * Z * string :=
  match s with
  | String c r =>
      match digit_val c with
      | Some d => read_digits r (acc * 10 + d)%Z (count + 1)%Z
      | None => (acc, count, s)
      end
  | EmptyString => (acc, count, s)
  end.

(** The exponent digits; as in strconv the accumulator stops growing once
    it has reached 10000. *)
Fixpoint read_exponent (s : string) (acc : Z) : Z :=
  match s with
  | String c r =>
      match digit_val c with
      | Some d => read_exponent r (if (acc <? 10000)%Z then acc * 10 + d else acc)%Z
      | None => acc
      end
  | EmptyString => acc
  end.

Definition decimal_parts (lit : string) : bool * Z * Z :=
  let '(neg, s1) :=
    match lit with
    | String "-" r => (true, r)
    | _ => (false, lit)
    end in
  let '(ip, _, s2) := read_digits s1 0 0 in
  let '(m, nfrac, s3) :=
    match s2 with
    | String "." r => read_digits r ip 0
    | _ => (ip, 0%Z, s2)
    end in
  let e :=
    match s3 with
    | String c r =>
        if Ascii.eqb c "e" || Ascii.eqb c "E" then
          match r with
          | String "-" r' => (- read_exponent r' 0)%Z
          | String "+" r' => read_exponent r' 0
          | _ => read_exponent r 0
          end
        else 0%Z
    | EmptyString => 0%Z
    end in
  (neg, m, (e - nfrac)%Z).

(** [m * 10^e] rounded to binary64.  For [e < 0] the quotient [m / 10^-e]
    is computed with at least 56 significant bits and one more bit that
    records a non-zero remainder, so that the final rounding sees on which
    side of every rounding boundary the exact value lies. *)
Definition round_decimal (neg : bool) (m e : Z) : float64 :=
  match m with
  | Zpos p =>
      if (0 <=? e)%Z then
        match (m * 10 ^ e)%Z with
        | Zpos q => binary_round 53 1024 neg q 0
        | _ => S754_zero neg
        end
      else
        let d := (10 ^ (- e))%Z in
        let k := Z.max 0 (56 + Z.log2_up d - Z.log2 m) in
        let n := (m * 2 ^ k)%Z in
        let q := (n / d)%Z in
        let sticky := if (n mod d =? 0)%Z then 0%Z else 1%Z in
        match (2 * q + sticky)%Z with
        | Zpos q' => binary_round 53 1024 neg q' (- k - 1)
        | _ => S754_zero neg
        end
  | _ => S754_zero neg
  end.

Definition ParseFloat (lit : string) : option float64 :=
  let '(neg, m, e) := decimal_parts lit in
  match round_decimal neg m e with
  | S754_infinity _ => None
  | f => Some f
  end.

(** ** encoding/json: syntax

    A JSON text is checked and read by a recursive-descent reader that
    accepts what Go's scanner accepts.  Numbers keep their literal text:
    whether and how a literal is converted depends on the Go value it is
    stored into. *)

Inductive jvalue : Type :=
| JNull
| JBool (b : bool)
| JNumber (lit : string)
| JString (s : string)
| JArray (elems : list jvalue)
| JObject (members : list (string * jvalue)).

Definition is_space (c : ascii) : bool :=
  Ascii.eqb c " " || Ascii.eqb c "009" || Ascii.eqb c "013" || Ascii.eqb c "010".

Fixpoint skip_space (s : string) : string :=
  match s with
  | String c r => if is_space c then skip_space r else s
  | EmptyString => s
  end.

(** [utf8.DecodeRune] at the head of [s]: the length of the well-formed
    encoding found there, or [0] when the head byte starts none. *)
Definition utf8_width (s : string) : nat :=
  match s with
  | EmptyString => 0
  | String c0 r =>
      let b0 := byte_val c0 in
      if (b0 <? 0x80)%Z then 1
      else if in_range 0xC2 0xDF c0 then
        match r with
        | String c1 _ => if in_range 0x80 0xBF c1 then 2 else 0
        | _ => 0
        end
      else if in_range 0xE0 0xEF c0 then
        let lo := if (b0 =? 0xE0)%Z then 0xA0%Z else 0x80%Z in
        let hi := if (b0 =? 0xED)%Z then 0x9F%Z else 0xBF%Z in
        match r with
        | String c1 (String c2 _) =>
            if in_range lo hi c1 && in_range 0x80 0xBF c2 then 3 else 0
        | _ => 0
        end
      else if in_range 0xF0 0xF4 c0 then
        let lo := if (b0 =? 0xF0)%Z then 0x90%Z else 0x80%Z in
        let hi := if (b0 =? 0xF4)%Z then 0x8F%Z else 0xBF%Z in
        match r with
        | String c1 (String c2 (String c3 _)) =>
            if in_range lo hi c1 && in_range 0x80 0xBF c2 && in_range 0x80 0xBF c3
            then 4 else 0
        | _ => 0
        end
      else 0
  end.

(** U+FFFD, which replaces whatever is not well-formed UTF-8. *)
Definition replacement_char : string :=
  String (byte_of 0xEF) (String (byte_of 0xBF) (String (byte_of 0xBD) EmptyString)).

(** [utf8.AppendRune] *)
Definition encode_rune (cp : Z) : string :=
  let cont (z : Z) := byte_of (Z.lor 0x80 (Z.land z 0x3F)) in
  if (cp <? 0)%Z then replacement_char
  else if (cp <? 0x80)%Z then String (byte_of cp) EmptyString
  else if (cp <? 0x800)%Z then
    String (byte_of (Z.lor 0xC0 (Z.shiftr cp 6))) (String (cont cp) EmptyString)
  else if ((0xD800 <=? cp) && (cp <? 0xE000))%Z then replacement_char
  else if (cp <? 0x10000)%Z then
    String (byte_of (Z.lor 0xE0 (Z.shiftr cp 12)))
      (String (cont (Z.shiftr cp 6)) (String (cont cp) EmptyString))
  else if (cp <=? 0x10FFFF)%Z then
    String (byte_of (Z.lor 0xF0 (Z.shiftr cp 18)))
      (String (cont (Z.shiftr cp 12))
         (String (cont (Z.shiftr cp 6)) (String (cont cp) EmptyString)))
  else replacement_char.

Definition hex_val (c : ascii) : option Z :=
  if in_range 48 57 c then Some (byte_val c - 48)%Z
  else if in_range 97 102 c then Some (byte_val c - 87)%Z
  else if in_range 65 70 c then Some (byte_val c - 55)%Z
  else None.

Definition hex4 (s : string) : option (Z * string) :=
  match s with
  | String h1 (String h2 (String h3 (String h4 r))) =>
      match hex_val h1, hex_val h2, hex_val h3, hex_val h4 with
      | Some a, Some b, Some c, Some d => Some (((a * 16 + b) * 16 + c) * 16 + d, r)%Z
      | _, _, _, _ => None
      end
  | _ => None
  end.

(** [getu4]: a [\uXXXX] escape at the head of [s]. *)
Definition getu4 (s : string) : option (Z * string) :=
  match s with
  | String b (String "u" r) => if Ascii.eqb b backslash then hex4 r else None
  | _ => None
  end.

Definition is_surrogate (r : Z) : bool := ((0xD800 <=? r) && (r <? 0xE000))%Z.

(** [utf16.DecodeRune] on a pair that is known to be a valid one. *)
Definition combine_surrogates (hi lo : Z) : Z :=
  (Z.lor (Z.shiftl (hi - 0xD800) 10) (lo - 0xDC00) + 0x10000)%Z.

Definition simple_escape (c : ascii) : option ascii :=
  if Ascii.eqb c quote then Some quote
  else if Ascii.eqb c backslash then Some backslash
  else if Ascii.eqb c "/" then Some "/"%char
  else if Ascii.eqb c "b" then Some "008"%char
  else if Ascii.eqb c "f" then Some "012"%char
  else if Ascii.eqb c "n" then Some "010"%char
  else if Ascii.eqb c "r" then Some "013"%char
  else if Ascii.eqb c "t" then Some "009"%char
  else None.

Fixpoint drop_bytes (n : nat) (s : string) : string :=
  match n, s with
  | S n', String _ r => drop_bytes n' r
  | _, _ => s
  end.

Fixpoint take_bytes (n : nat) (s : string) : string :=
  match n, s with
  | S n', String c r => String c (take_bytes n' r)
  | _, _ => EmptyString
  end.

(** The body of a string literal, after its opening quote: the decoded
    text ([unquote]) and what follows the closing quote.  [None] where the
    scanner reports a syntax error.  Every step consumes a byte, so more
    fuel than the text has bytes is enough. *)
Fixpoint unquote (fuel : nat) (s : string) {struct fuel} : option (string * string) :=
  match fuel with
  | O => None
  | S fuel' =>
      let emit (out : string) (rest : string) :=
        match unquote fuel' rest with
        | Some (t, rest') => Some (out ++ t, rest')
        | None => None
        end in
      match s with
      | EmptyString => None
      | String c r =>
          if Ascii.eqb c quote then Some (EmptyString, r)
          else if Ascii.eqb c backslash then
            match r with
            | String "u" r1 =>
                match hex4 r1 with
                | Some (rr, r2) =>
                    if is_surrogate rr then
                      match getu4 r2 with
                      | Some (rr1, r3) =>
                          if ((rr <? 0xDC00) && (0xDC00 <=? rr1) && (rr1 <? 0xE000))%Z
                          then emit (encode_rune (combine_surrogates rr rr1)) r3
                          else emit replacement_char r2
                      | None => emit replacement_char r2
                      end
                    else emit (encode_rune rr) r2
                | None => None
                end
            | String e r1 =>
                match simple_escape e with
                | Some b => emit (String b EmptyString) r1
                | None => None
                end
            | EmptyString => None
            end
          else if (byte_val c <? 0x20)%Z then None
          else if (byte_val c <? 0x80)%Z then emit (String c EmptyString) r
          else
            match utf8_width s with
            | O => emit replacement_char r
            | w => emit (take_bytes w s) (drop_bytes w s)
            end
      end
  end.

Fixpoint take_digits (s : string) : string * string :=
  match s with
  | String c r =>
      if in_range 48 57 c then
        let '(ds, rest) := take_digits r in (String c ds, rest)
      else (EmptyString, s)
  | EmptyString => (EmptyString, s)
  end.

(** A number literal at the head of [s]: its text and the rest. *)
Definition scan_number (s : string) : option (string * string) :=
  let '(sign, s1) :=
    match s with
    | String "-" r => ("-", r)
    | _ => ("", s)
    end in
  let int_part :=
    match s1 with
    | String c r =>
        if Ascii.eqb c "0" then Some ("0", r)
        else if in_range 49 57 c then
          let '(ds, rest) := take_digits r in Some (String c ds, rest)
        else None
    | EmptyString => None
    end in
  match int_part with
  | None => None
  | Some (ip, s2) =>
      let frac_part :=
        match s2 with
        | String "." r =>
            match take_digits r with
            | (EmptyString, _) => None
            | (ds, rest) => Some ("." ++ ds, rest)
            end
        | _ => Some ("", s2)
        end in
      match frac_part with
      | None => None
      | Some (fp, s3) =>
          let digits_after (mark : string) (r : string) :=
            match take_digits r with
            | (EmptyString, _) => None
            | (ds, rest) => Some (mark ++ ds, rest)
            end in
          let exp_part :=
            match s3 with
            | String c r =>
                if Ascii.eqb c "e" || Ascii.eqb c "E" then
                  match r with
                  | String "+" r' => digits_after (String c "+") r'
                  | String "-" r' => digits_after (String c "-") r'
                  | _ => digits_after (String c "") r
                  end
                else Some ("", s3)
            | EmptyString => Some ("", s3)
            end in
          match exp_part with
          | None => None
          | Some (ep, s4) => Some (sign ++ ip ++ fp ++ ep, s4)
          end
      end
  end.

Definition strip_prefix (p s : string) : option string :=
  if String.prefix p s then Some (drop_bytes (String.length p) s) else None.

(** The scanner refuses a text that opens more than this many nested
    arrays and objects. *)
Definition maxNestingDepth : N := 10000.

(** The rest of [s] when it starts with the byte [c]. *)
Definition starts_with (c : ascii) (s : string) : option string :=
  match s with
  | String c' r => if Ascii.eqb c' c then Some r else None
  | EmptyString => None
  end.

(** One level of the reader: a value, the members of an object after
    its opening brace, the elements of an array after its opening
    bracket, each over the readers of what is nested in it. *)
Definition value_body
    (members : N -> string -> option (list (string * jvalue) * string))
    (elems : N -> string -> option (list jvalue * string))
    (depth : N) (s : string) : option (jvalue * string) :=
  match skip_space s with
  | EmptyString => None
  | String c r =>
      if Ascii.eqb c "{" then
        if (depth <? maxNestingDepth)%N then
          match starts_with "}" (skip_space r) with
          | Some r' => Some (JObject [], r')
          | None =>
              match members (N.succ depth) r with
              | Some (ms, r') => Some (JObject ms, r')
              | None => None
              end
          end
        else None
      else if Ascii.eqb c "[" then
        if (depth <? maxNestingDepth)%N then
          match starts_with "]" (skip_space r) with
          | Some r' => Some (JArray [], r')
          | None =>
              match elems (N.succ depth) r with
              | Some (vs, r') => Some (JArray vs, r')
              | None => None
              end
          end
        else None
      else if Ascii.eqb c quote then
        match unquote (S (String.length r)) r with
        | Some (t, r') => Some (JString t, r')
        | None => None
        end
      else if Ascii.eqb c "t" then
        option_map (pair (JBool true)) (strip_prefix "rue" r)
      else if Ascii.eqb c "f" then
        option_map (pair (JBool false)) (strip_prefix "alse" r)
      else if Ascii.eqb c "n" then
        option_map (pair JNull) (strip_prefix "ull" r)
      else
        match scan_number (String c r) with
        | Some (lit, r') => Some (JNumber lit, r')
        | None => None
        end
  end.

Definition members_body
    (value : N -> string -> option (jvalue * string))
    (members : N -> string -> option (list (string * jvalue) * string))
    (depth : N) (s : string) : option (list (string * jvalue) * string) :=
  match starts_with quote (skip_space s) with
  | Some r =>
      match unquote (S (String.length r)) r with
      | Some (k, r1) =>
          match starts_with ":" (skip_space r1) with
          | Some r2 =>
              match value depth r2 with
              | Some (v, r3) =>
                  match starts_with "," (skip_space r3) with
                  | Some r4 =>
                      match members depth r4 with
                      | Some (ms, r5) => Some ((k, v) :: ms, r5)
                      | None => None
                      end
                  | None =>
                      match starts_with "}" (skip_space r3) with
                      | Some r4 => Some ([(k, v)], r4)
                      | None => None
                      end
                  end
              | None => None
              end
          | None => None
          end
      | None => None
      end
  | None => None
  end.

Definition elems_body
    (value : N -> string -> option (jvalue * string))
    (elems : N -> string -> option (list jvalue * string))
    (depth : N) (s : string) : option (list jvalue * string) :=
  match value depth s with
  | Some (v, r1) =>
      match starts_with "," (skip_space r1) with
      | Some r2 =>
          match elems depth r2 with
          | Some (vs, r3) => Some (v :: vs, r3)
          | None => None
          end
      | None =>
          match starts_with "]" (skip_space r1) with
          | Some r2 => Some ([v], r2)
          | None => None
          end
      end
  | None => None
  end.

Fixpoint parse_value (fuel : nat) (depth : N) (s : string) {struct fuel}
  : option (jvalue * string) :=
  match fuel with
  | O => None
  | S fuel' => value_body (parse_members fuel') (parse_elems fuel') depth s
  end
with parse_members (fuel : nat) (depth : N) (s : string) {struct fuel}
  : option (list (string * jvalue) * string) :=
  match fuel with
  | O => None
  | S fuel' => members_body (parse_value fuel') (parse_members fuel') depth s
  end
with parse_elems (fuel : nat) (depth : N) (s : string) {struct fuel}
  : option (list jvalue * string) :=
  match fuel with
  | O => None
  | S fuel' => elems_body (parse_value fuel') (parse_elems fuel') depth s
  end.

(** One JSON value with optional white space around it, and nothing else.
    Of any two calls of the reader that follow each other, one has
    consumed a byte, so twice the length of the text (and two) is fuel
    enough. *)
Definition json_parse (data : string) : option jvalue :=
  match parse_value (S (S (2 * String.length data))) 0 data with
  | Some (v, rest) =>
      match skip_space rest with
      | EmptyString => Some v
      | _ => None
      end
  | None => None
  end.

(** ** encoding/json: decoding into Go values *)

(** The dynamic values [json.Unmarshal] stores into an [any]. *)
Inductive any : Type :=
| ANil
| ABool (b : bool)
| ANumber (f : float64)
| AString (s : string)
| AArray (l : list any)
| AMap (m : gmap string any).

(** An inbound event, [map[string]any].  A nil map reads like the empty
    one and is not told apart from it. *)
Abbreviation event := (gmap string any).

Inductive json_err : Type :=
| SyntaxError
| UnmarshalTypeError.

(** Decoding into an [any]: objects become maps (a repeated key keeps its
    last value), numbers become float64.  [None] when a number is out of
    range, which [Unmarshal] reports as an [UnmarshalTypeError]. *)
Fixpoint to_any (v : jvalue) : option any :=
  match v with
  | JNull => Some ANil
  | JBool b => Some (ABool b)
  | JNumber lit => option_map ANumber (ParseFloat lit)
  | JString s => Some (AString s)
  | JArray vs =>
      (fix elems (vs : list jvalue) : option any :=
         match vs with
         | [] => Some (AArray [])
         | v :: vs' =>
             match to_any v, elems vs' with
             | Some a, Some (AArray l) => Some (AArray (a :: l))
             | _, _ => None
             end
         end) vs
  | JObject ms =>
      (fix members (ms : list (string * jvalue)) (acc : gmap string any) : option any :=
         match ms with
         | [] => Some (AMap acc)
         | (k, v) :: ms' =>
             match to_any v with
             | Some a => members ms' (<[k := a]> acc)
             | None => None
             end
         end) ms ∅
  end.

(** [json.Unmarshal(data, &evt)] for [var evt map[string]any]. *)
Definition json_Unmarshal_map (data : string) : event + json_err :=
  match json_parse data with
  | None => inr SyntaxError
  | Some JNull => inl ∅
  | Some (JObject ms) =>
      match to_any (JObject ms) with
      | Some (AMap m) => inl m
      | _ => inr UnmarshalTypeError
      end
  | Some _ => inr UnmarshalTypeError
  end.

(** The argument struct of the multiply tool:
    [struct { A float64 `json:"a"`; B float64 `json:"b"` }]. *)
Record multiply_args : Type := MultiplyArgs { A : float64; B : float64 }.

Inductive args_field : Type := FieldA | FieldB.

Definition fold_byte (c : ascii) : ascii :=
  if in_range 97 122 c then byte_of (byte_val c - 32) else c.

(** [foldName] on the ASCII letters.  Bytes of other runes are kept: no
    rune outside ASCII folds to [A] or [B], so no key that holds one can
    name a field of [multiply_args]. *)
Fixpoint foldName (s : string) : string :=
  match s with
  | EmptyString => EmptyString
  | String c r => String (fold_byte c) (foldName r)
  end.

(** The struct field an object key names: the exact name first, then
    the name under case folding. *)
Definition field_of_key (k : string) : option args_field :=
  if String.eqb k "a" then Some FieldA
  else if String.eqb k "b" then Some FieldB
  else if String.eqb (foldName k) "A" then Some FieldA
  else if String.eqb (foldName k) "B" then Some FieldB
  else None.

(** Storing a JSON value into a float64 field: [null] leaves the field as
    it is, a number in range sets it, everything else is a type error
    that leaves it as it is. *)
Definition store_float64 (v : jvalue) (old : float64) : float64 * option json_err :=
  match v with
  | JNull => (old, None)
  | JNumber lit =>
      match ParseFloat lit with
      | Some f => (f, None)
      | None => (old, Some UnmarshalTypeError)
      end
  | _ => (old, Some UnmarshalTypeError)
  end.

(** The decoder keeps the first error it meets and goes on decoding. *)
Definition first_err (saved new : option json_err) : option json_err :=
  match saved with
  | Some e => Some e
  | None => new
  end.

Definition decode_member (st : multiply_args * option json_err) (kv : string * jvalue)
  : multiply_args * option json_err :=
  let '(args, err) := st in
  match field_of_key kv.1 with
  | Some FieldA =>
      let '(f, e) := store_float64 kv.2 (A args) in
      (MultiplyArgs f (B args), first_err err e)
  | Some FieldB =>
      let '(f, e) := store_float64 kv.2 (B args) in
      (MultiplyArgs (A args) f, first_err err e)
  | None => st
  end.

Definition zero_args : multiply_args := MultiplyArgs float64_zero float64_zero.

(** [json.Unmarshal([]byte(argsJSON), &args)] on a fresh [args]. *)
Definition json_Unmarshal_args (argsJSON : string) : multiply_args * option json_err :=
  match json_parse argsJSON with
  | None => (zero_args, Some SyntaxError)
  | Some JNull => (zero_args, None)
  | Some (JObject ms) => fold_left decode_member ms (zero_args, None)
  | Some _ => (zero_args, Some UnmarshalTypeError)
  end.

(** ** Errors *)

Inductive ctx_err : Type :=
| Canceled
| DeadlineExceeded.

(** Go [error] values.  [Errorf text w] is [fmt.Errorf]: [text] is the
    formatted message up to a final [%w] verb, [w] the error wrapped
    there, if any. *)
Inductive error : Type :=
| ErrContext (e : ctx_err)
| ErrJSON (e : json_err)
| ErrConn (msg : string)
| Errorf (text : string) (wrapped : option error).

(** [errors.Unwrap] *)
Definition Unwrap (e : error) : option error :=
  match e with
  | Errorf _ w => w
  | _ => None
  end.

(** ** Queues and the select statement *)

(** What one pass of [select { case <-ctx.Done(): ... case evt, ok := <-events: ... }]
    takes: the context is done, an event is received, or the channel is
    found closed and drained.  A list of them is what the consumer sees,
    in order; when it ends the consumer is blocked in the select. *)
Inductive select_case : Type :=
| CtxDone (e : ctx_err)
| Recv (evt : event)
| ChanClosed.

(** [s, _ := evt[k].(string)] *)
Definition str_field (evt : event) (k : string) : string :=
  match evt !! k with
  | Some (AString s) => s
  | _ => ""
  end.

(** ** The event reader, [startReader]

    The goroutine is followed through the operations it performs on its
    two channels.  Its input is what each pass of its loop meets: the
    context found done, or the result of [c.Read]. *)







(** ** Other packages

    The websocket connection with its [Write], [json.Marshal] and the
    [%g] verb of [fmt] belong to other packages; the engine is stated over
    any implementation of them. *)

Class Transport (conn : Type) : Type := {
  (** [c.Write(ctx, websocket.MessageText, data)]: the connection after
      the call and the error returned. *)
  conn_Write : conn -> string -> conn * option error
}.

Class Formatting : Type := {
  (** [json.Marshal(v)]: the bytes and the error returned. *)
  json_Marshal : any -> string * option error;
  (** What [%g] prints for a float64. *)
  fmt_g : float64 -> string
}.

Section Engine.

Context {conn : Type} {transport : Transport conn} {formatting : Formatting}.

(** *** Outbound messages *)

Definition marshalAndSend (c : conn) (data : any) : conn * option error :=
  match json_Marshal data with
  | (_, Some err) => (c, Some (Errorf "marshal error: " (Some err)))
  | (jsonData, None) =>
      match conn_Write c jsonData with
      | (c', Some err) => (c', Some (Errorf "write error: " (Some err)))
      | (c', None) => (c', None)
      end
  end.

Definition function_output_msg (callID outputJSON : string) : any :=
  AMap (<["type" := AString "conversation.item.create"]>
        (<["item" := AMap (<["type" := AString "function_call_output"]>
                           (<["call_id" := AString callID]>
                            (<["output" := AString outputJSON]> ∅)))]> ∅)).

(** The parameter schema of the multiply tool, as [addMultipleToTools]
    advertises it.  Slices of strings and of maps are written as lists of
    [any]: they marshal alike. *)
Definition multiply_parameters : any :=
  AMap (<["type" := AString "object"]>
        (<["properties" :=
             AMap (<["a" := AMap (<["type" := AString "number"]> ∅)]>
                   (<["b" := AMap (<["type" := AString "number"]> ∅)]> ∅))]>
         (<["required" := AArray [AString "a"; AString "b"]]> ∅))).

Definition defaultInstructions : string := "Provide a detailed response.".

Definition multipleInstractions : string :=
  "When the user asks to multiply two numbers call the multiply tool.".

Definition session_update_msg : any :=
  AMap (<["type" := AString "session.update"]>
        (<["session" :=
             AMap (<["instructions" := AString (defaultInstructions ++ multipleInstractions)]>
                   (<["tools" :=
                        AArray [AMap (<["type" := AString "function"]>
                                      (<["name" := AString "multiply"]>
                                       (<["description" :=
                                            AString "Multiply two numbers and return the result."]>
                                        (<["parameters" := multiply_parameters]> ∅))))]]> ∅))]> ∅)).

Definition addMultipleToTools (c : conn) : conn * option error :=
  marshalAndSend c session_update_msg.

Definition sendFunctionOutput (c : conn) (callID outputJSON : string)
  : conn * option error :=
  marshalAndSend c (function_output_msg callID outputJSON).

(** *** [waitForEventTypeFromChan] *)

Definition server_error (evt : event) : error :=
  Errorf ("server error: " ++ (json_Marshal (AMap evt)).1) None.

(** One pass of the loop: [Some r] when the function returns [r]. *)
Definition wait_iter (expectedEventType : string) (sel : select_case)
  : option (option error) :=
  match sel with
  | CtxDone e =>
      Some (Some (Errorf ("timeout waiting for " ++ expectedEventType ++ ": ")
                    (Some (ErrContext e))))
  | ChanClosed =>
      Some (Some (Errorf ("events channel closed while waiting for "
                          ++ expectedEventType) None))
  | Recv evt =>
      let typ := str_field evt "type" in
      if String.eqb typ "error" then Some (Some (server_error evt))
      else if String.eqb typ expectedEventType then Some None
      else None
  end.

(** The result and the select cases left for later waits; [None] is a
    wait still blocked when the given cases end. *)
Fixpoint waitForEventTypeFromChan (expectedEventType : string) (sels : list select_case)
  : option (option error * list select_case) :=
  match sels with
  | [] => None
  | sel :: rest =>
      match wait_iter expectedEventType sel with
      | Some r => Some (r, rest)
      | None => waitForEventTypeFromChan expectedEventType rest
      end
  end.

(** *** [streamAssistantTextFromChan] *)

(** The locals of the function, the connection it writes to and the
    standard output it prints on.  [argBuf] maps a call id to the
    contents of its [strings.Builder]; a nil entry is an absent key. *)
Record stream_state : Type := StreamState {
  full : string;
  needFollowUp : bool;
  printedWithNoTool : bool;
  argBuf : gmap string string;
  ws : conn;
  stdout : string
}.

Definition stream_init (c : conn) (out : string) : stream_state :=
  StreamState "" false false ∅ c out.

Inductive stream_outcome : Type :=
| Returned (text : string) (followUp : bool) (err : option error)
    (c : conn) (out : string)
| Streaming (st : stream_state).

Definition newline : string := String "010" EmptyString.

(** The argument text a done event is decoded from. *)
Definition resolve_args (st : stream_state) (evt : event) : string :=
  let argsJSON := str_field evt "arguments" in
  if String.eqb argsJSON "" then
    match argBuf st !! str_field evt "call_id" with
    | Some b => b
    | None => argsJSON
    end
  else argsJSON.

Definition result_json (result : float64) : string :=
  js "{'result': " ++ fmt_g result ++ "}".

Definition on_text_delta (st : stream_state) (evt : event) : stream_state :=
  match evt !! "delta" with
  | Some (AString d) =>
      StreamState (full st ++ d) (needFollowUp st) true (argBuf st) (ws st)
        (stdout st ++ (if printedWithNoTool st then "" else "Chatbot> ") ++ d)
  | _ => st
  end.

Definition on_args_delta (st : stream_state) (evt : event) : stream_state :=
  let callID := str_field evt "call_id" in
  let delta := str_field evt "delta" in
  if String.eqb callID "" || String.eqb delta "" then st
  else
    let buf := default "" (argBuf st !! callID) in
    StreamState (full st) (needFollowUp st) (printedWithNoTool st)
      (<[callID := buf ++ delta]> (argBuf st)) (ws st) (stdout st).

(** The tool bridge: what follows a successful decoding of the
    arguments, up to the end of the case. *)
Definition invoke_multiply (st : stream_state) (callID : string) (args : multiply_args)
  : stream_outcome :=
  let result := multiply (A args) (B args) in
  let out := result_json result in
  match sendFunctionOutput (ws st) callID out with
  | (c', Some err) => Returned (full st) (needFollowUp st) (Some err) c' (stdout st)
  | (c', None) =>
      Streaming
        (StreamState (full st) true (printedWithNoTool st)
           (delete callID (argBuf st)) c' (stdout st))
  end.

Definition on_args_done (st : stream_state) (evt : event) : stream_outcome :=
  let callID := str_field evt "call_id" in
  let argsJSON := resolve_args st evt in
  match json_Unmarshal_args argsJSON with
  | (_, Some err) =>
      Returned (full st) (needFollowUp st)
        (Some (Errorf "bad function args: " (Some (ErrJSON err)))) (ws st) (stdout st)
  | (args, None) => invoke_multiply st callID args
  end.

Definition on_done (st : stream_state) : stream_outcome :=
  Returned (full st) (needFollowUp st) None (ws st)
    (stdout st ++ (if printedWithNoTool st then newline else "")).

(** One pass of the loop. *)
Definition stream_iter (st : stream_state) (sel : select_case) : stream_outcome :=
  match sel with
  | CtxDone e =>
      Returned (full st) (needFollowUp st)
        (Some (Errorf "stream timeout: " (Some (ErrContext e)))) (ws st) (stdout st)
  | ChanClosed =>
      Returned (full st) (needFollowUp st)
        (Some (Errorf "events channel closed during stream" None)) (ws st) (stdout st)
  | Recv evt =>
      let typ := str_field evt "type" in
      if String.eqb typ "error" then
        Returned (full st) (needFollowUp st) (Some (server_error evt)) (ws st) (stdout st)
      else if String.eqb typ "response.text.delta" then
        Streaming (on_text_delta st evt)
      else if String.eqb typ "response.function_call_arguments.delta" then
        Streaming (on_args_delta st evt)
      else if String.eqb typ "response.function_call_arguments.done" then
        on_args_done st evt
      else if String.eqb typ "response.text.done" || String.eqb typ "response.done" then
        on_done st
      else Streaming st
  end.

(** The loop from a given state.  [Returned] is the three results of
    the function with the connection and the standard output it leaves
    behind; [Streaming st] is a function still blocked in its select,
    in state [st], when the given cases end. *)
Fixpoint stream_loop (st : stream_state) (sels : list select_case) : stream_outcome :=
  match sels with
  | [] => Streaming st
  | sel :: rest =>
      match stream_iter st sel with
      | Streaming st' => stream_loop st' rest
      | r => r
      end
  end.

Definition streamAssistantTextFromChan (c : conn) (out : string)
  (sels : list select_case) : stream_outcome :=
  stream_loop (stream_init c out) sels.

End Engine.

Arguments stream_state conn : clear implicits.
Arguments stream_outcome conn : clear implicits.

(** ** Error messages *)

Definition ctx_err_text (e : ctx_err) : string :=
  match e with
  | Canceled => "context canceled"
  | DeadlineExceeded => "context deadline exceeded"
  end.

(** [err.Error()].  The texts of the errors of [encoding/json] are not
    modelled and are taken as [json_text]. *)
Fixpoint Error (json_text : json_err -> string) (e : error) : string :=
  match e with
  | ErrContext c => ctx_err_text c
  | ErrJSON j => json_text j
  | ErrConn msg => msg
  | Errorf text None => text
  | Errorf text (Some w) => text ++ Error json_text w
  end.

(** ** What a run of select cases holds *)

(** Concatenation of fragments in their order. *)
Definition concat_all (frags : list string) : string := fold_right String.append "" frags.

(** The text a select case adds to the accumulated text: that of a
    text-delta event whose [delta] is a string. *)
Definition text_delta_of (sel : select_case) : option string :=
  match sel with
  | Recv evt =>
      if String.eqb (str_field evt "type") "response.text.delta" then
        match evt !! "delta" with
        | Some (AString d) => Some d
        | _ => None
        end
      else None
  | _ => None
  end.

Definition text_deltas (sels : list select_case) : list string := omap text_delta_of sels.

(** What the text deltas [ds] of a cycle put on the standard output: the
    prompt once, before the first of them. *)
Definition shown (printed : bool) (ds : list string) : string :=
  match ds with
  | [] => ""
  | _ => (if printed then "" else "Chatbot> ") ++ concat_all ds
  end.

Definition has_type (evt : event) (typ : string) : Prop := str_field evt "type" = typ.

(** A function-call-arguments delta for call [C] carrying [frag]. *)
Definition is_args_delta (C frag : string) (evt : event) : Prop :=
  has_type evt "response.function_call_arguments.delta"
  /\ str_field evt "call_id" = C /\ str_field evt "delta" = frag.

(** A function-call-arguments-done event for call [C] whose [arguments]
    string is [explicit] (empty when the field is absent or no string). *)
Definition is_args_done (C explicit : string) (evt : event) : Prop :=
  has_type evt "response.function_call_arguments.done"
  /\ str_field evt "call_id" = C /\ str_field evt "arguments" = explicit.

Definition is_completion (evt : event) : Prop :=
  has_type evt "response.text.done" \/ has_type evt "response.done".

(** The fragment a select case carries for call [C], if it is one of its
    function-call-arguments deltas. *)
Definition arg_fragment_of (C : string) (sel : select_case) : option string :=
  match sel with
  | Recv evt =>
      if String.eqb (str_field evt "type") "response.function_call_arguments.delta"
         && String.eqb (str_field evt "call_id") C
      then Some (str_field evt "delta")
      else None
  | _ => None
  end.

Definition arg_fragments (C : string) (sels : list select_case) : list string :=
  omap (arg_fragment_of C) sels.

(** The buffer entry of a call after the fragments of concatenation
    [frag] have been appended to the entry [old]: a buffer is created by
    the first fragment that is not empty. *)
Definition buffer_after (old : option string) (frag : string) : option string :=
  if String.eqb frag "" then old else Some (default "" old ++ frag).

(** A select case that delivers a function-call-arguments delta, of
    whatever call. *)
Definition delivers_args_delta (sel : select_case) : Prop :=
  match sel with
  | Recv evt => has_type evt "response.function_call_arguments.delta"
  | _ => False
  end.

(** ** Events and a transport for the examples *)

Definition mk_event (fields : list (string * string)) : event :=
  list_to_map (prod_map id AString <$> fields).

Definition text_delta_event (d : string) : event :=
  mk_event [("type", "response.text.delta"); ("delta", d)].

Definition args_delta_event (callID frag : string) : event :=
  mk_event [("type", "response.function_call_arguments.delta");
            ("call_id", callID); ("delta", frag)].

Definition args_done_event (callID arguments : string) : event :=
  mk_event [("type", "response.function_call_arguments.done");
            ("call_id", callID); ("arguments", arguments)].

(** A done event without an [arguments] field. *)
Definition args_done_bare (callID : string) : event :=
  mk_event [("type", "response.function_call_arguments.done"); ("call_id", callID)].

Definition error_event (message : string) : event :=
  mk_event [("type", "error"); ("message", message)].

Definition completion_event : event := mk_event [("type", "response.done")].

(** The text deltas of a greeting. *)
Definition greeting_deltas : list select_case :=
  [Recv (text_delta_event "Hello"); Recv (text_delta_event "! How can I help?")].

(** The arguments of a call of the tool on 6 and 7, in two fragments. *)
Definition six_seven_deltas : list event :=
  [args_delta_event "call_1" (js "{'a':6,"); args_delta_event "call_1" (js "'b':7}")].

(** A connection that records the frames written to it and never fails. *)
Definition log_Write (c : list string) (data : string) : list string * option error :=
  ((c ++ [data])%list, None).

#[export] Instance log_transport : Transport (list string) := {| conn_Write := log_Write |}.

Definition quoted (s : string) : string := String quote (s ++ String quote "").

(** Whole numbers in plain decimal, as [%g] renders them below 1e21; it
    stands in for the verb in the examples, where no other value occurs. *)
Definition sample_fmt_g (f : float64) : string :=
  let dec (s : bool) (z : Z) :=
    (if s then "-" else "") ++ DecimalString.NilZero.string_of_int (Z.to_int z) in
  match f with
  | S754_zero s => dec s 0%Z
  | S754_finite s m e =>
      if (0 <=? e)%Z then dec s (Zpos m * 2 ^ e)%Z
      else if (Zpos m mod 2 ^ (- e) =? 0)%Z then dec s (Zpos m / 2 ^ (- e))%Z
      else "?"
  | S754_infinity s => if s then "-Inf" else "+Inf"
  | S754_nan => "NaN"
  end.

(** A plain rendering of a value as JSON text; it stands in for
    [json.Marshal] in the examples. *)
Fixpoint sample_encode (v : any) : string :=
  match v with
  | ANil => "null"
  | ABool b => if b then "true" else "false"
  | ANumber f => sample_fmt_g f
  | AString s => quoted s
  | AArray l =>
      "[" ++ (fix elems (l : list any) : string :=
                match l with
                | [] => ""
                | [x] => sample_encode x
                | x :: l' => sample_encode x ++ "," ++ elems l'
                end) l ++ "]"
  | AMap m =>
      "{" ++ map_fold (fun k x acc =>
                         quoted k ++ ":" ++ sample_encode x
                         ++ (if String.eqb acc "" then "" else ",") ++ acc) "" m ++ "}"
  end.

Definition sample_Marshal (v : any) : string * option error := (sample_encode v, None).

Definition sample_formatting : Formatting :=
  {| json_Marshal := sample_Marshal; fmt_g := sample_fmt_g |}.

(** The frame [sample_Marshal] yields for the output [result] of call
    [callID]. *)
Definition output_frame (callID result : string) : string :=
  js "{'item':{'output':'{'result': " ++ result
  ++ js "}','call_id':'" ++ callID
  ++ js "','type':'function_call_output'},'type':'conversation.item.create'}".

(** ** The schema read as a validator

    The tool is advertised with ["required": ["a", "b"]]
    ([multiply_parameters]).  Read as a check the streamer performs, that
    says: a done event whose argument text is a JSON object without a
    member ["b"] ends the cycle with an argument error. *)
Definition rejects_missing_b : Prop :=
  forall (conn : Type) (transport : Transport conn) (formatting : Formatting)
         (st : stream_state conn) (evt : event) (ms : list (string * jvalue)),
    has_type evt "response.function_call_arguments.done" ->
    json_parse (resolve_args st evt) = Some (JObject ms) ->
    Forall (fun kv => kv.1 <> "b") ms ->
    exists err,
      stream_iter st (Recv evt)
      = Returned (full st) (needFollowUp st)
          (Some (Errorf "bad function args: " (Some err))) (ws st) (stdout st).

(** ** The orchestrator: the senders of a turn and the turn itself *)

Section Orchestrator.

Context {conn : Type} {transport : Transport conn} {formatting : Formatting}.

Definition user_input_msg (textInput : string) : any :=
  AMap (<["type" := AString "conversation.item.create"]>
        (<["item" :=
             AMap (<["type" := AString "message"]>
                   (<["role" := AString "user"]>
                    (<["content" :=
                         AArray [AMap (<["type" := AString "input_text"]>
                                       (<["text" := AString textInput]> ∅))]]> ∅)))]> ∅)).

Definition sendUserInput (c : conn) (textInput : string) : conn * option error :=
  marshalAndSend c (user_input_msg textInput).

Definition response_create_msg (instructions : string) : any :=
  AMap (<["type" := AString "response.create"]>
        (<["response" :=
             AMap (<["modalities" := AArray [AString "text"]]>
                   (<["instructions" := AString instructions]> ∅))]> ∅)).

Definition requestTextResponse (c : conn) (instructions : string) : conn * option error :=
  marshalAndSend c (response_create_msg instructions).

(** [streamAssistantTextFromChan] with the select cases it leaves for
    whoever reads the channel next. *)
Fixpoint stream_run (st : stream_state conn) (sels : list select_case)
  : stream_outcome conn * list select_case :=
  match sels with
  | [] => (Streaming st, [])
  | sel :: rest =>
      match stream_iter st sel with
      | Streaming st' => stream_run st' rest
      | r => (r, rest)
      end
  end.

(** What the non-blocking receive on the error queue finds at the end of
    a turn: nothing ready, a closed and drained queue (the receive yields
    nil), or an error. *)
Inductive errs_poll : Type :=
| ErrsNone
| ErrsClosed
| ErrsError (err : error).

(** A turn ends, or the process exits in [log.Fatal] with the error
    after the given prefix, or the turn is still blocked when the given
    select cases end. *)
Inductive turn_outcome : Type :=
| TurnDone (c : conn) (out : string) (rest : list select_case)
| TurnFatal (prefix : string) (err : error) (c : conn) (out : string)
| TurnBlocked.

Definition drain_errors (poll : errs_poll) (c : conn) (out : string)
    (rest : list select_case) : turn_outcome :=
  match poll with
  | ErrsError err => TurnFatal "reader error: " err c out
  | _ => TurnDone c out rest
  end.

(** The body of the loop of [main] from the trimmed input line on. *)
Definition run_turn (c : conn) (out input : string) (sels : list select_case)
    (poll : errs_poll) : turn_outcome :=
  match sendUserInput c input with
  | (c1, Some err) => TurnFatal "failed to send user input: " err c1 out
  | (c1, None) =>
      match waitForEventTypeFromChan "conversation.item.created" sels with
      | None => TurnBlocked
      | Some (Some err, _) => TurnFatal "" err c1 out
      | Some (None, sels1) =>
          match requestTextResponse c1 defaultInstructions with
          | (c2, Some err) => TurnFatal "" err c2 out
          | (c2, None) =>
              match stream_run (stream_init c2 out) sels1 with
              | (Streaming _, _) => TurnBlocked
              | (Returned _ _ (Some err) c3 out3, _) => TurnFatal "" err c3 out3
              | (Returned _ needFollowUp None c3 out3, sels2) =>
                  if needFollowUp then
                    match requestTextResponse c3 defaultInstructions with
                    | (c4, Some err) => TurnFatal "" err c4 out3
                    | (c4, None) =>
                        match stream_run (stream_init c4 out3) sels2 with
                        | (Streaming _, _) => TurnBlocked
                        | (Returned _ _ (Some err) c5 out5, _) => TurnFatal "" err c5 out5
                        | (Returned _ _ None c5 out5, sels3) =>
                            drain_errors poll c5 (out5 ++ newline) sels3
                        end
                    end
                  else drain_errors poll c3 (out3 ++ newline) sels2
              end
          end
      end
  end.

End Orchestrator.

Arguments turn_outcome conn : clear implicits.

(** ** Start-up *)

(** [os.Getenv]: the value of a variable, empty when it is not set. *)
Definition Getenv (env : gmap string string) (key : string) : string :=
  default "" (env !! key).

(** [loadAPIKey]: [errors.New] makes an error that is its message. *)
Definition loadAPIKey (env : gmap string string) : string * option error :=
  let apiKey := Getenv env "OPENAI_API_KEY" in
  if String.eqb apiKey "" then ("", Some (Errorf "OPENAI_API_KEY not found" None))
  else (apiKey, None).

(** ** More on what a run of select cases holds *)

(** The events the streamer passes over: a type it does not know (or no
    string type at all), a text delta whose [delta] is no string, a
    function-call-arguments delta without call id or without text. *)
Definition ignored (evt : event) : bool :=
  let typ := str_field evt "type" in
  if String.eqb typ "error" then false
  else if String.eqb typ "response.text.delta" then
    match evt !! "delta" with
    | Some (AString _) => false
    | _ => true
    end
  else if String.eqb typ "response.function_call_arguments.delta" then
    String.eqb (str_field evt "call_id") "" || String.eqb (str_field evt "delta") ""
  else if String.eqb typ "response.function_call_arguments.done" then false
  else if String.eqb typ "response.text.done" || String.eqb typ "response.done" then false
  else true.

Definition kept (sel : select_case) : bool :=
  match sel with
  | Recv evt => negb (ignored evt)
  | _ => true
  end.

(** An event a wait for [expected] passes over. *)
Definition unrelated (expected : string) (evt : event) : Prop :=
  str_field evt "type" <> "error" /\ str_field evt "type" <> expected.

(** A select case that does not deliver a done event. *)
Definition no_args_done (sel : select_case) : Prop :=
  match sel with
  | Recv evt => str_field evt "type" <> "response.function_call_arguments.done"
  | _ => True
  end.

(** Every buffer has a call id and a text, neither of them empty. *)
Definition buffers_filled (bufs : gmap string string) : Prop :=
  forall k b, bufs !! k = Some b -> k <> "" /\ b <> "".

(** ** More on the reader *)








(** ** Numbers the tool is called with *)

Definition finite_or_zero (f : float64) : Prop :=
  match f with
  | S754_zero _ | S754_finite _ _ _ => True
  | _ => False
  end.

(** ** More events and a failing transport for the examples *)

Definition ack_event : event := mk_event [("type", "conversation.item.created")].

Definition session_updated_event : event := mk_event [("type", "session.updated")].

(** A connection on which every write fails. *)
Definition broken_transport : Transport (list string) :=
  {| conn_Write := fun c _ => (c, Some (ErrConn "broken pipe")) |}.

(** ** When a member of the argument object is stored *)

(** Whether storing [v] into a float64 field succeeds: [null] and a
    number in range are stored, nothing else. *)
Definition stores (v : jvalue) : bool :=
  match v with
  | JNull => true
  | JNumber lit =>
      match ParseFloat lit with
      | Some _ => true
      | None => false
      end
  | _ => false
  end.

(** A member decodes when it names no field, or names one and holds
    what can be stored in it. *)
Definition member_decodes (kv : string * jvalue) : bool :=
  match field_of_key kv.1 with
  | Some _ => stores kv.2
  | None => true
  end.

(** ** The frame read as embedded in the error

    [p] occurs in [s] as it is, byte for byte. *)
Definition occurs_in (p s : string) : Prop := exists u v, s = u ++ p ++ v.

Fixpoint spaces (n : nat) : string :=
  match n with
  | O => EmptyString
  | S n' => String " " (spaces n')
  end.

(** Read of the frame an error event came in, the sentence that the
    error embeds the original payload verbatim says: whatever frame
    decodes to an error event, its bytes occur in the text of the error
    made from that event. *)
Definition embeds_frame_verbatim (formatting : Formatting) : Prop :=
  forall (json_text : json_err -> string) (data : string) (evt : event),
    json_Unmarshal_map data = inl evt ->
    has_type evt "error" ->
    occurs_in data (Error json_text (server_error evt)).

(** * Properties *)

(** ** Strings *)

Lemma append_cons (c : ascii) (s t : string) : String c s ++ t = String c (s ++ t).
Proof. reflexivity. Qed.

Lemma append_nil_r (s : string) : s ++ "" = s.
Proof.
  induction s as [|c s IH]; [reflexivity |].
  by rewrite append_cons, IH.
Qed.

Lemma append_assoc (s1 s2 s3 : string) : (s1 ++ s2) ++ s3 = s1 ++ (s2 ++ s3).
Proof.
  induction s1 as [|c s1 IH]; [reflexivity |].
  by rewrite !append_cons, IH.
Qed.

Lemma concat_all_app (l1 l2 : list string) :
  concat_all (l1 ++ l2)%list = concat_all l1 ++ concat_all l2.
Proof.
  induction l1 as [|f l1 IH]; simpl; [reflexivity |].
  by rewrite IH, append_assoc.
Qed.

Lemma append_eq_nil (s t : string) : s ++ t = "" -> s = "" /\ t = "".
Proof. destruct s; [intros H; split; [reflexivity | exact H] | discriminate]. Qed.

Lemma buffer_after_nil (old : option string) : buffer_after old "" = old.
Proof. reflexivity. Qed.

Lemma buffer_after_app (old : option string) (f1 f2 : string) :
  buffer_after (buffer_after old f1) f2 = buffer_after old (f1 ++ f2).
Proof.
  unfold buffer_after.
  destruct (String.eqb f1 "") eqn:H1.
  { apply String.eqb_eq in H1 as ->. reflexivity. }
  assert (H12 : String.eqb (f1 ++ f2) "" = false).
  { apply String.eqb_neq. intros [Hf _]%append_eq_nil.
    apply String.eqb_neq in H1. contradiction. }
  rewrite H12. destruct (String.eqb f2 "") eqn:H2.
  - apply String.eqb_eq in H2 as ->. by rewrite append_nil_r.
  - simpl. by rewrite append_assoc.
Qed.

Lemma buffer_after_default (frag : string) : default "" (buffer_after None frag) = frag.
Proof.
  unfold buffer_after. destruct (String.eqb frag "") eqn:H; [| reflexivity].
  by apply String.eqb_eq in H as ->.
Qed.

Lemma arg_fragments_cons (C : string) (sel : select_case) (sels : list select_case) :
  arg_fragments C (sel :: sels)
  = match arg_fragment_of C sel with
    | Some f => f :: arg_fragments C sels
    | None => arg_fragments C sels
    end.
Proof. reflexivity. Qed.

Lemma arg_fragments_app (C : string) (l1 l2 : list select_case) :
  arg_fragments C (l1 ++ l2)%list = (arg_fragments C l1 ++ arg_fragments C l2)%list.
Proof. apply omap_app. Qed.

(** ** Decoding the arguments *)

Lemma decode_member_keeps_B (st : multiply_args * option json_err) (kv : string * jvalue) :
  field_of_key kv.1 <> Some FieldB -> B (decode_member st kv).1 = B st.1.
Proof.
  intros Hk. destruct st as [args err]. unfold decode_member.
  destruct (field_of_key kv.1) as [[|]|]; [| congruence | reflexivity].
  by destruct (store_float64 kv.2 (A args)).
Qed.

Lemma decode_members_keep_B (ms : list (string * jvalue)) (st : multiply_args * option json_err) :
  Forall (fun kv => field_of_key kv.1 <> Some FieldB) ms ->
  B (fold_left decode_member ms st).1 = B st.1.
Proof.
  revert st. induction ms as [|kv ms IH]; intros st Hall; simpl; [reflexivity |].
  inversion Hall as [|? ? Hkv Hms]; subst.
  rewrite IH by assumption. by apply decode_member_keeps_B.
Qed.

(** Storing into a field fails with a type error only. *)
Lemma decode_member_err (st : multiply_args * option json_err) (kv : string * jvalue) :
  (st.2 = None \/ st.2 = Some UnmarshalTypeError) ->
  (decode_member st kv).2 = None \/ (decode_member st kv).2 = Some UnmarshalTypeError.
Proof.
  destruct st as [args err]. unfold decode_member, store_float64. simpl. intros Herr.
  destruct (field_of_key kv.1) as [[|]|]; simpl; [| | exact Herr];
    destruct kv.2; try destruct (ParseFloat lit); simpl;
    destruct Herr as [-> | ->]; simpl; auto.
Qed.

Lemma decode_members_err (ms : list (string * jvalue)) (st : multiply_args * option json_err) :
  (st.2 = None \/ st.2 = Some UnmarshalTypeError) ->
  (fold_left decode_member ms st).2 = None
  \/ (fold_left decode_member ms st).2 = Some UnmarshalTypeError.
Proof.
  revert st. induction ms as [|kv ms IH]; intros st Herr; simpl; [exact Herr |].
  apply IH. by apply decode_member_err.
Qed.

Lemma store_float64_err (v : jvalue) (old : float64) :
  (store_float64 v old).2 = if stores v then None else Some UnmarshalTypeError.
Proof.
  destruct v; simpl; try reflexivity. by destruct (ParseFloat lit).
Qed.

Lemma decode_member_err_eq (st : multiply_args * option json_err) (kv : string * jvalue) :
  (decode_member st kv).2
  = if member_decodes kv then st.2 else first_err st.2 (Some UnmarshalTypeError).
Proof.
  destruct st as [args err]. unfold decode_member, member_decodes. simpl.
  destruct (field_of_key kv.1) as [[|]|]; [| | reflexivity].
  - pose proof (store_float64_err kv.2 (A args)) as Hs.
    destruct (store_float64 kv.2 (A args)) as [f e]. simpl in *. subst e.
    destruct (stores kv.2); by destruct err.
  - pose proof (store_float64_err kv.2 (B args)) as Hs.
    destruct (store_float64 kv.2 (B args)) as [f e]. simpl in *. subst e.
    destruct (stores kv.2); by destruct err.
Qed.

Lemma decode_members_failed (ms : list (string * jvalue))
    (st : multiply_args * option json_err) (e : json_err) :
  st.2 = Some e -> (fold_left decode_member ms st).2 = Some e.
Proof.
  revert st. induction ms as [|kv ms IH]; intros st Hst; [exact Hst |].
  simpl. apply IH. rewrite decode_member_err_eq, Hst.
  by destruct (member_decodes kv).
Qed.

(** The members of an object are decoded without error exactly when
    each of them decodes. *)
Lemma decode_members_result (ms : list (string * jvalue))
    (st : multiply_args * option json_err) :
  st.2 = None ->
  (fold_left decode_member ms st).2
  = if forallb member_decodes ms then None else Some UnmarshalTypeError.
Proof.
  revert st. induction ms as [|kv ms IH]; intros st Hst; [exact Hst |].
  simpl. destruct (member_decodes kv) eqn:Hkv; simpl.
  - apply IH. by rewrite decode_member_err_eq, Hkv.
  - apply decode_members_failed. by rewrite decode_member_err_eq, Hkv, Hst.
Qed.

(** Among members none of which names [b], one that does not decode
    names [a] and holds what cannot be stored. *)
Lemma undecoded_member (ms : list (string * jvalue)) :
  Forall (fun kv => field_of_key kv.1 <> Some FieldB) ms ->
  forallb member_decodes ms = false ->
  exists kv, kv ∈ ms /\ field_of_key kv.1 = Some FieldA /\ stores kv.2 = false.
Proof.
  induction 1 as [|kv ms Hkv _ IH]; [discriminate |].
  simpl. destruct (member_decodes kv) eqn:Hd; simpl.
  - intros (kv' & Hin & H')%IH. exists kv'. split; [by right | exact H'].
  - intros _. exists kv. split; [by left |].
    unfold member_decodes in Hd. destruct (field_of_key kv.1) as [[|]|]; try done.
Qed.

Section EngineFacts.

Context {conn : Type} {transport : Transport conn} {formatting : Formatting}.

Lemma stream_loop_cons (st : stream_state conn) (sel : select_case) (rest : list select_case) :
  stream_loop st (sel :: rest) =
  match stream_iter st sel with
  | Streaming st' => stream_loop st' rest
  | r => r
  end.
Proof. reflexivity. Qed.

Lemma stream_loop_app (st : stream_state conn) (l1 l2 : list select_case) :
  stream_loop st (l1 ++ l2)%list =
  match stream_loop st l1 with
  | Streaming st' => stream_loop st' l2
  | r => r
  end.
Proof.
  revert st. induction l1 as [|sel l1 IH]; intros st; simpl; [reflexivity |].
  destruct (stream_iter st sel); [reflexivity | apply IH].
Qed.

(** What one pass that does not return does to the accumulated text,
    the follow-up flag and the standard output. *)
Lemma stream_iter_frame (st st' : stream_state conn) (sel : select_case) :
  stream_iter st sel = Streaming st' ->
  full st' = full st ++ default "" (text_delta_of sel)
  /\ (needFollowUp st = true -> needFollowUp st' = true)
  /\ printedWithNoTool st' =
       printedWithNoTool st || bool_decide (is_Some (text_delta_of sel))
  /\ stdout st' = stdout st ++
       match text_delta_of sel with
       | Some d => (if printedWithNoTool st then "" else "Chatbot> ") ++ d
       | None => ""
       end.
Proof.
  destruct sel as [e | evt |]; simpl; try discriminate.
  destruct (String.eqb (str_field evt "type") "error"); [discriminate |].
  destruct (String.eqb (str_field evt "type") "response.text.delta").
  { intros [= <-]. unfold on_text_delta.
    destruct (evt !! "delta") as [[ | | | d | |]|]; simpl;
      rewrite ?append_nil_r, ?orb_false_r, ?orb_true_r; auto. }
  assert (Hid : full st = full st ++ ""
                /\ (needFollowUp st = true -> needFollowUp st = true)
                /\ printedWithNoTool st = printedWithNoTool st || false
                /\ stdout st = stdout st ++ "").
  { rewrite !append_nil_r, orb_false_r. auto. }
  destruct (String.eqb (str_field evt "type") "response.function_call_arguments.delta").
  { intros [= <-]. unfold on_args_delta.
    destruct (String.eqb (str_field evt "call_id") "" || String.eqb (str_field evt "delta") "");
      simpl; exact Hid. }
  destruct (String.eqb (str_field evt "type") "response.function_call_arguments.done").
  { unfold on_args_done, invoke_multiply.
    destruct (json_Unmarshal_args _) as [args [err|]]; [discriminate |].
    destruct (sendFunctionOutput _ _ _) as [c' [err|]]; [discriminate |].
    intros [= <-]. simpl. destruct Hid as (? & ? & ? & ?). auto. }
  destruct (String.eqb (str_field evt "type") "response.text.done"
            || String.eqb (str_field evt "type") "response.done"); [discriminate |].
  intros [= <-]. exact Hid.
Qed.

Lemma stream_loop_frame (sels : list select_case) (st st' : stream_state conn) :
  stream_loop st sels = Streaming st' ->
  full st' = full st ++ concat_all (text_deltas sels)
  /\ (needFollowUp st = true -> needFollowUp st' = true)
  /\ printedWithNoTool st' =
       match text_deltas sels with
       | [] => printedWithNoTool st
       | _ => true
       end
  /\ stdout st' = stdout st ++ shown (printedWithNoTool st) (text_deltas sels).
Proof.
  revert st. induction sels as [|sel sels IH]; intros st; simpl.
  { intros [= <-]. by rewrite !append_nil_r. }
  destruct (stream_iter st sel) as [| st1] eqn:Hstep; [discriminate |].
  intros Hrest. apply stream_iter_frame in Hstep as (Hf & Hn & Hp & Ho).
  apply IH in Hrest as (Hf' & Hn' & Hp' & Ho').
  rewrite Hf', Hf, Ho', Ho, Hp', Hp. unfold text_deltas. simpl.
  fold (text_deltas sels).
  destruct (text_delta_of sel) as [d|]; simpl.
  - rewrite orb_true_r, !append_assoc. repeat split; [auto | by destruct (text_deltas sels) |].
    f_equal. unfold shown. destruct (text_deltas sels); reflexivity.
  - rewrite orb_false_r, !append_nil_r. auto.
Qed.

(** A pass that returns hands back the flag as it stood. *)
Lemma stream_iter_returns (st : stream_state conn) (sel : select_case) text fu err c out :
  stream_iter st sel = Returned text fu err c out ->
  text = full st /\ fu = needFollowUp st.
Proof.
  destruct sel as [e | evt |]; simpl; try (by intros [= <- <- <- <- <-]).
  repeat (match goal with
          | |- (if ?b then _ else _) = _ -> _ => destruct b
          end; try (by intros [= <- <- <- <- <-]); try discriminate).
  unfold on_args_done, invoke_multiply.
  destruct (json_Unmarshal_args _) as [args [e|]]; [by intros [= <- <- <- <- <-] |].
  destruct (sendFunctionOutput _ _ _) as [c1 [e|]];
    [by intros [= <- <- <- <- <-] | discriminate].
Qed.

(** Once set, the follow-up flag is what the function returns. *)
Lemma stream_loop_followUp (sels : list select_case) (st : stream_state conn)
    text fu err c out :
  needFollowUp st = true ->
  stream_loop st sels = Returned text fu err c out ->
  fu = true.
Proof.
  revert st. induction sels as [|sel sels IH]; intros st Hn; simpl; [discriminate |].
  destruct (stream_iter st sel) as [text' fu' err' c' out' | st1] eqn:Hstep.
  - intros [= <- <- <- <- <-]. apply stream_iter_returns in Hstep as [_ ->]. exact Hn.
  - intros Hrest. apply stream_iter_frame in Hstep as (_ & Hn1 & _).
    eapply IH; [apply Hn1, Hn | exact Hrest].
Qed.

(** *** Text deltas *)


(** *** Tool-call arguments *)

Lemma iter_args_delta (st : stream_state conn) (evt : event) :
  has_type evt "response.function_call_arguments.delta" ->
  stream_iter st (Recv evt) = Streaming (on_args_delta st evt).
Proof. unfold stream_iter, has_type. by intros ->. Qed.

Lemma iter_args_done (st : stream_state conn) (evt : event) :
  has_type evt "response.function_call_arguments.done" ->
  stream_iter st (Recv evt) = on_args_done st evt.
Proof. unfold stream_iter, has_type. by intros ->. Qed.

(** C6: a function-call-arguments delta whose call id or whose text is
    empty leaves the whole state of the streamer as it was: no buffer is
    created or changed, and the accumulated text and the follow-up flag
    stay. *)
Theorem empty_args_delta_ignored (st : stream_state conn) (evt : event) :
  has_type evt "response.function_call_arguments.delta" ->
  str_field evt "call_id" = "" \/ str_field evt "delta" = "" ->
  stream_iter st (Recv evt) = Streaming st.
Proof.
  intros Ht Hempty. rewrite iter_args_delta by exact Ht.
  unfold on_args_delta. destruct Hempty as [-> | ->]; simpl; [reflexivity |].
  by rewrite orb_true_r.
Qed.

(** C10: a done event that carries no non-empty [arguments] string, for
    a call id that has no buffer, resolves to the empty text; the empty
    text is no JSON, so the streamer returns the text accumulated so
    far with a bad-function-args error and leaves the connection as it
    was: nothing is sent. *)
Theorem done_without_arguments_fails (st : stream_state conn) (evt : event)
    (rest : list select_case) :
  has_type evt "response.function_call_arguments.done" ->
  str_field evt "arguments" = "" ->
  argBuf st !! str_field evt "call_id" = None ->
  resolve_args st evt = ""
  /\ json_Unmarshal_args "" = (zero_args, Some SyntaxError)
  /\ stream_loop st (Recv evt :: rest)
     = Returned (full st) (needFollowUp st)
         (Some (Errorf "bad function args: " (Some (ErrJSON SyntaxError))))
         (ws st) (stdout st).
Proof.
  intros Ht Hargs Hbuf.
  assert (Hres : resolve_args st evt = "").
  { unfold resolve_args. by rewrite Hargs, Hbuf. }
  split; [exact Hres |]. split.
  - reflexivity.
  - rewrite stream_loop_cons, iter_args_done by exact Ht.
    unfold on_args_done. by rewrite Hres.
Qed.

Lemma function_output_msg_fields (callID outputJSON : string) :
  exists item : gmap string any,
    function_output_msg callID outputJSON
    = AMap (<["type" := AString "conversation.item.create"]>
            (<["item" := AMap item]> ∅))
    /\ item !! "type" = Some (AString "function_call_output")
    /\ item !! "call_id" = Some (AString callID)
    /\ item !! "output" = Some (AString outputJSON).
Proof.
  eexists. split; [reflexivity |].
  repeat split; by simplify_map_eq.
Qed.

Lemma sendFunctionOutput_ok (c c' : conn) (callID outputJSON : string) :
  sendFunctionOutput c callID outputJSON = (c', None) ->
  exists frame,
    json_Marshal (function_output_msg callID outputJSON) = (frame, None)
    /\ conn_Write c frame = (c', None).
Proof.
  unfold sendFunctionOutput, marshalAndSend.
  destruct (json_Marshal _) as [frame [err|]]; [discriminate |].
  destruct (conn_Write c frame) as [c1 [err|]] eqn:Hw; [discriminate |].
  intros [= <-]. by exists frame.
Qed.

(** C2: on a done event for call [C] whose arguments decode and whose
    output is sent without error, the argument text is the event's own
    [arguments] string when that is not empty and the buffer of [C]
    otherwise; one frame is written, the function_call_output item that
    names [C] and holds the product; the buffer of [C] is gone, the
    follow-up flag is set, and whenever the streamer returns after
    that, it returns the flag set. *)
Theorem done_dispatches_tool (st : stream_state conn) (evt : event) (C : string)
    (args : multiply_args) (c' : conn) :
  has_type evt "response.function_call_arguments.done" ->
  str_field evt "call_id" = C ->
  json_Unmarshal_args (resolve_args st evt) = (args, None) ->
  sendFunctionOutput (ws st) C (result_json (multiply (A args) (B args))) = (c', None) ->
  let st' := StreamState (full st) true (printedWithNoTool st)
               (delete C (argBuf st)) c' (stdout st) in
  resolve_args st evt
    = (if String.eqb (str_field evt "arguments") ""
       then default "" (argBuf st !! C)
       else str_field evt "arguments")
  /\ (exists frame,
        json_Marshal (function_output_msg C (result_json (multiply (A args) (B args))))
        = (frame, None)
        /\ conn_Write (ws st) frame = (c', None))
  /\ stream_iter st (Recv evt) = Streaming st'
  /\ argBuf st' !! C = None
  /\ forall rest text fu err c out,
       stream_loop st (Recv evt :: rest) = Returned text fu err c out -> fu = true.
Proof.
  intros Ht HC Hdec Hsend st'.
  assert (Hstep : stream_iter st (Recv evt) = Streaming st').
  { rewrite iter_args_done by exact Ht. unfold on_args_done, invoke_multiply.
    by rewrite Hdec, HC, Hsend. }
  split; [| split; [| split; [| split]]].
  - unfold resolve_args. rewrite HC.
    destruct (String.eqb (str_field evt "arguments") "") eqn:He; [| reflexivity].
    apply String.eqb_eq in He. rewrite He. by destruct (argBuf st !! C).
  - by apply sendFunctionOutput_ok.
  - exact Hstep.
  - apply lookup_delete_eq.
  - intros rest text fu err c out. rewrite stream_loop_cons, Hstep.
    by apply stream_loop_followUp.
Qed.

(** *** Argument buffers *)

(** The buffers after one function-call-arguments delta. *)
Lemma on_args_delta_lookup (st : stream_state conn) (evt : event) (C : string) :
  has_type evt "response.function_call_arguments.delta" ->
  argBuf (on_args_delta st evt) !! C
  = if String.eqb C "" then argBuf st !! C
    else buffer_after (argBuf st !! C) (default "" (arg_fragment_of C (Recv evt))).
Proof.
  intros Ht. unfold arg_fragment_of, on_args_delta. red in Ht. rewrite Ht. simpl.
  destruct (String.eqb (str_field evt "call_id") "") eqn:Hid; simpl.
  { apply String.eqb_eq in Hid. rewrite Hid.
    destruct (String.eqb C "") eqn:HC; [reflexivity |].
    rewrite String.eqb_sym, HC. reflexivity. }
  destruct (String.eqb (str_field evt "delta") "") eqn:Hd; simpl.
  { destruct (String.eqb C ""); [reflexivity |].
    destruct (String.eqb (str_field evt "call_id") C); [| reflexivity].
    simpl. apply String.eqb_eq in Hd. by rewrite Hd. }
  destruct (String.eqb (str_field evt "call_id") C) eqn:HC; simpl.
  - apply String.eqb_eq in HC. subst C. rewrite Hid, lookup_insert_eq.
    unfold buffer_after. by rewrite Hd.
  - apply String.eqb_neq in HC. rewrite lookup_insert_ne by exact HC.
    by destruct (String.eqb C "").
Qed.

(** A run of function-call-arguments deltas, of whatever calls, does not
    return and touches the buffers only: each call has received the
    concatenation of its own fragments. *)
Lemma args_deltas_run (sels : list select_case) (st : stream_state conn) :
  Forall delivers_args_delta sels ->
  exists bufs,
    stream_loop st sels
    = Streaming (StreamState (full st) (needFollowUp st) (printedWithNoTool st)
                   bufs (ws st) (stdout st))
    /\ bufs !! "" = argBuf st !! ""
    /\ forall C, C <> "" ->
         bufs !! C = buffer_after (argBuf st !! C) (concat_all (arg_fragments C sels)).
Proof.
  revert st. induction sels as [|sel sels IH]; intros st Hall.
  { exists (argBuf st). by destruct st. }
  inversion Hall as [|? ? Hsel Hrest]; subst.
  destruct sel as [| evt |]; simpl in Hsel; try contradiction.
  destruct (IH (on_args_delta st evt) Hrest) as (bufs & Hrun & Hnil & Hbufs).
  exists bufs. rewrite stream_loop_cons, iter_args_delta by exact Hsel.
  split; [| split].
  - rewrite Hrun. unfold on_args_delta.
    by destruct (String.eqb (str_field evt "call_id") ""
                 || String.eqb (str_field evt "delta") "").
  - rewrite Hnil. by rewrite on_args_delta_lookup.
  - intros C HC. rewrite (Hbufs C HC), on_args_delta_lookup by exact Hsel.
    apply String.eqb_neq in HC. rewrite HC, buffer_after_app.
    rewrite arg_fragments_cons. by destruct (arg_fragment_of C (Recv evt)).
Qed.

Lemma split_deltas_fragments (C : string) (frags : list string) (devs : list event) :
  Forall2 (is_args_delta C) frags devs ->
  Forall delivers_args_delta (Recv <$> devs)
  /\ arg_fragments C (Recv <$> devs) = frags
  /\ forall C', C' <> C -> arg_fragments C' (Recv <$> devs) = [].
Proof.
  induction 1 as [|frag evt frags devs (Ht & Hid & Hd) _ (IH1 & IH2 & IH3)].
  { split; [constructor | split; [reflexivity | intros; reflexivity]]. }
  assert (Hty : String.eqb (str_field evt "type")
                  "response.function_call_arguments.delta" = true).
  { red in Ht. by rewrite Ht. }
  split; [| split].
  - constructor; [exact Ht | exact IH1].
  - rewrite fmap_cons, arg_fragments_cons. unfold arg_fragment_of.
    by rewrite Hty, Hid, String.eqb_refl, Hd, IH2.
  - intros C' HC'. rewrite fmap_cons, arg_fragments_cons. unfold arg_fragment_of.
    assert (Hne : String.eqb C C' = false) by (apply String.eqb_neq; congruence).
    rewrite Hty, Hid, Hne. simpl. by apply IH3.
Qed.

(** C4: when the arguments of call [C] come in [k] deltas, the text
    the done event is decoded from is the concatenation of the [k]
    fragments in their order, and from there on the streamer does
    exactly what it does when that whole text comes as the [arguments]
    string of a single done event: the same frame is written, or the
    same error returned, and the rest of the cycle runs alike. *)
Theorem split_arguments_reassemble (st : stream_state conn) (C : string)
    (frags : list string) (devs : list event) (doneA doneB : event)
    (rest : list select_case) :
  C <> "" ->
  argBuf st !! C = None ->
  Forall2 (is_args_delta C) frags devs ->
  is_args_done C "" doneA ->
  is_args_done C (concat_all frags) doneB ->
  exists st1,
    stream_loop st (Recv <$> devs) = Streaming st1
    /\ resolve_args st1 doneA = concat_all frags
    /\ stream_loop st ((Recv <$> devs) ++ Recv doneA :: rest)%list
       = stream_loop st (Recv doneB :: rest).
Proof.
  intros HC Hfresh Hdevs (HtA & HidA & HargA) (HtB & HidB & HargB).
  apply split_deltas_fragments in Hdevs as (Hall & Hfr & Hother).
  destruct (args_deltas_run _ st Hall) as (bufs & Hrun & Hnil & Hbufs).
  eexists. split; [exact Hrun |].
  assert (HresA : resolve_args
                    (StreamState (full st) (needFollowUp st) (printedWithNoTool st)
                       bufs (ws st) (stdout st)) doneA = concat_all frags).
  { unfold resolve_args. simpl. rewrite HargA, HidA. simpl.
    rewrite (Hbufs C HC), Hfr, Hfresh.
    change (default "" (buffer_after None (concat_all frags)) = concat_all frags).
    apply buffer_after_default. }
  assert (HresB : resolve_args st doneB = concat_all frags).
  { unfold resolve_args. rewrite HargB, HidB, Hfresh.
    destruct (String.eqb (concat_all frags) "") eqn:He; [| reflexivity].
    by apply String.eqb_eq in He. }
  split; [exact HresA |].
  rewrite stream_loop_app, Hrun, !stream_loop_cons.
  rewrite !iter_args_done by assumption.
  unfold on_args_done. rewrite HresA, HresB, HidA, HidB. simpl.
  destruct (json_Unmarshal_args (concat_all frags)) as [args [err|]]; [reflexivity |].
  unfold invoke_multiply. simpl.
  destruct (sendFunctionOutput (ws st) C _) as [c' [err|]]; [reflexivity |].
  replace (delete C bufs) with (delete C (argBuf st)); [reflexivity |].
  apply map_eq. intros k. destruct (decide (k = C)) as [-> | Hk].
  { by rewrite !lookup_delete_eq. }
  rewrite !lookup_delete_ne by congruence.
  destruct (decide (k = "")) as [-> | Hk']; [by rewrite Hnil |].
  by rewrite (Hbufs k Hk'), (Hother k Hk).
Qed.

(** C5: in a cycle that delivers function-call-arguments deltas of
    several calls in any interleaving, the buffer of every call holds
    the fragments tagged with its own id, in their order of delivery,
    and nothing else; and the calls are dispatched in the order of
    their done markers: the output of the call whose marker comes first
    is written first, decoded from its own fragments, and the output of
    the other call is written on the connection that write has left. *)
Theorem interleaved_calls_stay_apart (c : conn) (out : string)
    (pre mid : list select_case) (done1 done2 : event) (C1 C2 : string) :
  C1 <> C2 -> C1 <> "" -> C2 <> "" ->
  Forall delivers_args_delta pre ->
  Forall delivers_args_delta mid ->
  is_args_done C1 "" done1 ->
  is_args_done C2 "" done2 ->
  exists st1,
    streamAssistantTextFromChan c out pre = Streaming st1
    /\ argBuf st1 !! "" = None
    /\ (forall C, C <> "" ->
          argBuf st1 !! C = buffer_after None (concat_all (arg_fragments C pre))
          /\ default "" (argBuf st1 !! C) = concat_all (arg_fragments C pre))
    /\ resolve_args st1 done1 = concat_all (arg_fragments C1 pre)
    /\ forall a1 a2 c1 c2,
         json_Unmarshal_args (concat_all (arg_fragments C1 pre)) = (a1, None) ->
         sendFunctionOutput c C1 (result_json (multiply (A a1) (B a1))) = (c1, None) ->
         json_Unmarshal_args (concat_all (arg_fragments C2 (pre ++ mid))) = (a2, None) ->
         sendFunctionOutput c1 C2 (result_json (multiply (A a2) (B a2))) = (c2, None) ->
         exists st2,
           streamAssistantTextFromChan c out
             (pre ++ Recv done1 :: mid ++ [Recv done2])%list = Streaming st2
           /\ ws st2 = c2
           /\ needFollowUp st2 = true
           /\ argBuf st2 !! C2 = None
           /\ default "" (argBuf st2 !! C1) = concat_all (arg_fragments C1 mid).
Proof.
  intros H12 H1 H2 Hpre Hmid (Ht1 & Hid1 & Harg1) (Ht2 & Hid2 & Harg2).
  unfold streamAssistantTextFromChan.
  destruct (args_deltas_run pre (stream_init c out) Hpre) as (bufs & Hrun & Hnil & Hbufs).
  simpl in Hrun, Hnil, Hbufs. rewrite lookup_empty in Hnil.
  assert (Hbuf : forall C, C <> "" ->
            bufs !! C = buffer_after None (concat_all (arg_fragments C pre))).
  { intros C HC. rewrite (Hbufs C HC). by rewrite lookup_empty. }
  assert (Hres1 : resolve_args (StreamState "" false false bufs c out) done1
                  = concat_all (arg_fragments C1 pre)).
  { unfold resolve_args. simpl. rewrite Harg1, Hid1. simpl.
    rewrite (Hbuf C1 H1). apply buffer_after_default. }
  eexists. split; [exact Hrun |]. simpl.
  split; [exact Hnil |]. split.
  { intros C HC. rewrite (Hbuf C HC). split; [reflexivity | apply buffer_after_default]. }
  split; [exact Hres1 |].
  intros a1 a2 c1 c2 Hdec1 Hsend1 Hdec2 Hsend2.
  rewrite stream_loop_app, Hrun, stream_loop_cons, iter_args_done by exact Ht1.
  unfold on_args_done at 1. rewrite Hres1, Hdec1, Hid1.
  unfold invoke_multiply at 1. simpl. rewrite Hsend1.
  rewrite stream_loop_app.
  destruct (args_deltas_run mid (StreamState "" true false (delete C1 bufs) c1 out) Hmid)
    as (bufs2 & Hrun2 & _ & Hbufs2).
  simpl in Hrun2, Hbufs2. rewrite Hrun2.
  assert (Hb2 : bufs2 !! C2
                = buffer_after None (concat_all (arg_fragments C2 (pre ++ mid)))).
  { rewrite (Hbufs2 C2 H2), lookup_delete_ne by exact H12.
    rewrite (Hbuf C2 H2), buffer_after_app.
    by rewrite arg_fragments_app, concat_all_app. }
  assert (Hres2 : resolve_args (StreamState "" true false bufs2 c1 out) done2
                  = concat_all (arg_fragments C2 (pre ++ mid))).
  { unfold resolve_args. simpl. rewrite Harg2, Hid2. simpl.
    rewrite Hb2. apply buffer_after_default. }
  rewrite stream_loop_cons, iter_args_done by exact Ht2.
  unfold on_args_done. rewrite Hres2, Hdec2, Hid2.
  unfold invoke_multiply. simpl. rewrite Hsend2.
  eexists. split; [reflexivity |]. simpl.
  split; [reflexivity |]. split; [reflexivity |]. split.
  - apply lookup_delete_eq.
  - rewrite lookup_delete_ne by congruence.
    rewrite (Hbufs2 C1 H1), lookup_delete_eq. apply buffer_after_default.
Qed.

(** *** Failures *)

Lemma iter_error (st : stream_state conn) (evt : event) :
  has_type evt "error" ->
  stream_iter st (Recv evt)
  = Returned (full st) (needFollowUp st) (Some (server_error evt)) (ws st) (stdout st).
Proof. unfold stream_iter, has_type. by intros ->. Qed.

Lemma wait_app (expected : string) (l1 l2 : list select_case) :
  waitForEventTypeFromChan expected l1 = None ->
  waitForEventTypeFromChan expected (l1 ++ l2)%list = waitForEventTypeFromChan expected l2.
Proof.
  induction l1 as [|sel l1 IH]; simpl; [reflexivity |].
  destruct (wait_iter expected sel); [discriminate | exact IH].
Qed.

(** C7: a server error event ends a wait and a stream at once,
    whatever would have followed, with an error whose text is
    ["server error: "] followed by the marshalled event; the streamer
    hands back with it all the text accumulated before, and what was
    printed stays printed. *)
Theorem server_error_aborts (c : conn) (out expected : string)
    (pre wpre rest : list select_case) (st : stream_state conn) (evt : event) :
  streamAssistantTextFromChan c out pre = Streaming st ->
  waitForEventTypeFromChan expected wpre = None ->
  has_type evt "error" ->
  streamAssistantTextFromChan c out (pre ++ Recv evt :: rest)
  = Returned (concat_all (text_deltas pre)) (needFollowUp st)
      (Some (server_error evt)) (ws st) (out ++ shown false (text_deltas pre))
  /\ waitForEventTypeFromChan expected (wpre ++ Recv evt :: rest)
     = Some (Some (server_error evt), rest)
  /\ server_error evt
     = Errorf ("server error: " ++ (json_Marshal (AMap evt)).1) None.
Proof.
  unfold streamAssistantTextFromChan. intros Hpre Hwait Ht.
  split; [| split; [| reflexivity]].
  - rewrite stream_loop_app, Hpre, stream_loop_cons, iter_error by exact Ht.
    apply stream_loop_frame in Hpre as (Hf & _ & _ & Ho). simpl in Hf, Ho.
    by rewrite Hf, Ho.
  - rewrite wait_app by exact Hwait. simpl. red in Ht. by rewrite Ht.
Qed.

(** C8: in a stream and in a wait alike, a queue found closed, an
    expired deadline and a server error event yield three errors whose
    messages differ from one another, whatever the event, the awaited
    type and the context error are. *)
Theorem failure_causes_distinct (json_text : json_err -> string)
    (c : conn) (out expected : string) (pre wpre : list select_case)
    (st : stream_state conn) (evt : event) (e : ctx_err) :
  streamAssistantTextFromChan c out pre = Streaming st ->
  waitForEventTypeFromChan expected wpre = None ->
  has_type evt "error" ->
  exists closed timeout server wclosed wtimeout wserver : error,
    streamAssistantTextFromChan c out (pre ++ [ChanClosed])
    = Returned (full st) (needFollowUp st) (Some closed) (ws st) (stdout st)
    /\ streamAssistantTextFromChan c out (pre ++ [CtxDone e])
       = Returned (full st) (needFollowUp st) (Some timeout) (ws st) (stdout st)
    /\ streamAssistantTextFromChan c out (pre ++ [Recv evt])
       = Returned (full st) (needFollowUp st) (Some server) (ws st) (stdout st)
    /\ waitForEventTypeFromChan expected (wpre ++ [ChanClosed]) = Some (Some wclosed, [])
    /\ waitForEventTypeFromChan expected (wpre ++ [CtxDone e]) = Some (Some wtimeout, [])
    /\ waitForEventTypeFromChan expected (wpre ++ [Recv evt]) = Some (Some wserver, [])
    /\ Error json_text closed <> Error json_text timeout
    /\ Error json_text closed <> Error json_text server
    /\ Error json_text timeout <> Error json_text server
    /\ Error json_text wclosed <> Error json_text wtimeout
    /\ Error json_text wclosed <> Error json_text wserver
    /\ Error json_text wtimeout <> Error json_text wserver
    /\ Unwrap closed = None /\ Unwrap server = None
    /\ Unwrap timeout = Some (ErrContext e).
Proof.
  unfold streamAssistantTextFromChan. intros Hpre Hwait Ht.
  do 6 eexists.
  rewrite !stream_loop_app, Hpre, !stream_loop_cons, iter_error by exact Ht.
  rewrite !wait_app by exact Hwait. simpl. red in Ht. rewrite Ht. simpl.
  repeat (split; [reflexivity |]).
  repeat split; discriminate.
Qed.

(** *** The multiply tool and its arguments *)

(** The schema sent to the service names both fields as required. *)
Lemma advertised_required_fields :
  exists schema : gmap string any,
    multiply_parameters = AMap schema
    /\ schema !! "required" = Some (AArray [AString "a"; AString "b"]).
Proof. eexists. split; [reflexivity |]. by simplify_map_eq. Qed.

Lemma invoke_multiply_no_args_error (st : stream_state conn) (callID : string)
    (args : multiply_args) text fu e c out :
  invoke_multiply st callID args
  <> Returned text fu (Some (Errorf "bad function args: " e)) c out.
Proof.
  unfold invoke_multiply, sendFunctionOutput, marshalAndSend.
  destruct (json_Marshal _) as [frame [err|]]; [discriminate |].
  destruct (conn_Write (ws st) frame) as [c1 [err|]]; discriminate.
Qed.

(** C1, as the code has it: the payload with both numbers decodes to
    them.  A JSON object with no member for [b] is not rejected for
    that: when every member that names a field holds [null] or a number
    in range, the text decodes, [b] keeps its zero value, and the
    streamer multiplies by it and sends the output like for any other
    call, never returning a bad-function-args error.  Such an object is
    rejected, with a type error, exactly when some member that names [a]
    holds what cannot be stored in a float64. *)
Theorem missing_b_decodes_to_zero (st : stream_state conn) (evt : event)
    (ms : list (string * jvalue)) :
  has_type evt "response.function_call_arguments.done" ->
  json_parse (resolve_args st evt) = Some (JObject ms) ->
  Forall (fun kv => field_of_key kv.1 <> Some FieldB) ms ->
  json_Unmarshal_args (js "{'a':3,'b':4}")
  = (MultiplyArgs (float64_of_Z 3) (float64_of_Z 4), None)
  /\ if forallb member_decodes ms then
       exists a : float64,
         json_Unmarshal_args (resolve_args st evt) = (MultiplyArgs a float64_zero, None)
         /\ stream_iter st (Recv evt)
            = invoke_multiply st (str_field evt "call_id") (MultiplyArgs a float64_zero)
         /\ forall text fu e c out,
              stream_iter st (Recv evt)
              <> Returned text fu (Some (Errorf "bad function args: " e)) c out
     else
       (json_Unmarshal_args (resolve_args st evt)).2 = Some UnmarshalTypeError
       /\ (exists kv, kv ∈ ms /\ field_of_key kv.1 = Some FieldA /\ stores kv.2 = false)
       /\ stream_iter st (Recv evt)
          = Returned (full st) (needFollowUp st)
              (Some (Errorf "bad function args: " (Some (ErrJSON UnmarshalTypeError))))
              (ws st) (stdout st).
Proof.
  intros Ht Hparse Hms. split; [by vm_compute |].
  rewrite iter_args_done by exact Ht. unfold on_args_done.
  unfold json_Unmarshal_args. rewrite Hparse.
  pose proof (decode_members_keep_B ms (zero_args, None) Hms) as HB.
  pose proof (decode_members_result ms (zero_args, None) eq_refl) as Herr.
  destruct (forallb member_decodes ms) eqn:Hall.
  - destruct (fold_left decode_member ms (zero_args, None)) as [[a b] err].
    simpl in HB, Herr. subst b err. exists a.
    split; [reflexivity |]. split; [reflexivity |].
    intros text fu e c out. apply invoke_multiply_no_args_error.
  - split; [exact Herr |]. split; [by apply undecoded_member |].
    destruct (fold_left decode_member ms (zero_args, None)) as [args err].
    simpl in Herr. by subst err.
Qed.

End EngineFacts.

(** ** The event reader *)




(** ** The reader has fuel enough *)

Lemma skip_space_length (s : string) : String.length (skip_space s) <= String.length s.
Proof.
  induction s as [|c s IH]; simpl; [lia |].
  destruct (is_space c); simpl; lia.
Qed.

Lemma drop_bytes_length (n : nat) (s : string) :
  String.length (drop_bytes n s) <= String.length s.
Proof.
  revert s. induction n as [|n IH]; intros [|c s]; simpl; try lia.
  specialize (IH s). lia.
Qed.

Lemma hex4_length (s r : string) (z : Z) :
  hex4 s = Some (z, r) -> String.length r <= String.length s.
Proof.
  unfold hex4. destruct s as [|h1 [|h2 [|h3 [|h4 s]]]]; try discriminate.
  destruct (hex_val h1), (hex_val h2), (hex_val h3), (hex_val h4); try discriminate.
  intros [= _ <-]. simpl. lia.
Qed.

Lemma getu4_length (s r : string) (z : Z) :
  getu4 s = Some (z, r) -> String.length r <= String.length s.
Proof.
  unfold getu4. destruct s as [|b [|u s]]; try discriminate.
  destruct u as [[] [] [] [] [] [] [] []]; try discriminate.
  destruct (Ascii.eqb b backslash); [| discriminate].
  intros H%hex4_length. simpl. lia.
Qed.

Lemma unquote_length (fuel : nat) (s t r : string) :
  unquote fuel s = Some (t, r) -> String.length r < String.length s.
Proof.
  revert s t r. induction fuel as [|fuel IH]; intros s t r; [discriminate |].
  assert (Hemit : forall out rest t r,
             match unquote fuel rest with
             | Some (t', rest') => Some (out ++ t', rest')
             | None => None
             end = Some (t, r) ->
             String.length r < String.length rest).
  { intros out rest t0 r0. destruct (unquote fuel rest) as [[t' rest']|] eqn:Hu;
      [| discriminate].
    intros [= _ <-]. by eapply IH. }
  cbn [unquote]. destruct s as [|c s]; [discriminate |].
  destruct (Ascii.eqb c quote). { intros [= _ <-]. simpl. lia. }
  destruct (Ascii.eqb c backslash).
  { destruct s as [|e s]; [discriminate |].
    destruct (Ascii.eqb e "u") eqn:Heu.
    - apply Ascii.eqb_eq in Heu. subst e.
      destruct (hex4 s) as [[rr r2]|] eqn:Hh; [| discriminate].
      apply hex4_length in Hh.
      destruct (is_surrogate rr).
      + destruct (getu4 r2) as [[rr1 r3]|] eqn:Hg.
        * apply getu4_length in Hg.
          destruct ((rr <? 0xDC00)%Z && (0xDC00 <=? rr1)%Z && (rr1 <? 0xE000)%Z);
            intros H%Hemit; simpl; lia.
        * intros H%Hemit. simpl. lia.
      + intros H%Hemit. simpl. lia.
    - assert (Hgen : match simple_escape e with
                     | Some b =>
                         match unquote fuel s with
                         | Some (t', rest') => Some (String b EmptyString ++ t', rest')
                         | None => None
                         end
                     | None => None
                     end = Some (t, r) -> String.length r < String.length (String c (String e s))).
      { destruct (simple_escape e); [| discriminate]. intros H%Hemit. simpl. lia. }
      destruct e as [[] [] [] [] [] [] [] []]; try exact Hgen; discriminate. }
  destruct (byte_val c <? 0x20)%Z; [discriminate |].
  destruct (byte_val c <? 0x80)%Z. { intros H%Hemit. simpl. lia. }
  destruct (utf8_width (String c s)) as [|w].
  - intros H%Hemit. simpl. lia.
  - intros H%Hemit. simpl in *. pose proof (drop_bytes_length w s). lia.
Qed.

Lemma take_digits_length (s ds r : string) :
  take_digits s = (ds, r) -> String.length r <= String.length s.
Proof.
  revert ds r. induction s as [|c s IH]; intros ds r; simpl.
  { intros [= _ <-]. simpl. lia. }
  destruct (in_range 48 57 c).
  - destruct (take_digits s) as [ds' r'] eqn:Ht. intros [= _ <-].
    specialize (IH _ _ eq_refl). lia.
  - intros [= _ <-]. simpl. lia.
Qed.

Lemma scan_number_length (s lit r : string) :
  scan_number s = Some (lit, r) -> String.length r < String.length s.
Proof.
  unfold scan_number.
  set (p := match s with String "-" r0 => ("-", r0) | _ => ("", s) end).
  assert (Hp : String.length p.2 <= String.length s).
  { subst p. destruct s as [|c s]; [simpl; lia |].
    destruct c as [[] [] [] [] [] [] [] []]; simpl; lia. }
  destruct p as [sign s1]. simpl in Hp.
  destruct s1 as [|c s1]; [discriminate |].
  set (ip := if Ascii.eqb c "0" then Some ("0", s1)
             else if in_range 49 57 c
                  then let '(ds, rest) := take_digits s1 in Some (String c ds, rest)
                  else None).
  assert (Hip : forall i s2, ip = Some (i, s2) -> String.length s2 <= String.length s1).
  { subst ip. intros i s2. destruct (Ascii.eqb c "0"); [by intros [= _ <-] |].
    destruct (in_range 49 57 c); [| discriminate].
    destruct (take_digits s1) as [ds rest] eqn:Ht. intros [= _ <-].
    by eapply take_digits_length. }
  destruct ip as [[i s2]|]; [| discriminate]. specialize (Hip _ _ eq_refl).
  set (fp := match s2 with
             | String "." r0 =>
                 match take_digits r0 with
                 | (EmptyString, _) => None
                 | (ds, rest) => Some ("." ++ ds, rest)
                 end
             | _ => Some ("", s2)
             end).
  assert (Hfp : forall f s3, fp = Some (f, s3) -> String.length s3 <= String.length s2).
  { subst fp. intros f s3. destruct s2 as [|d s2]; [by intros [= _ <-] |].
    assert (Hdot : match take_digits s2 with
                   | (EmptyString, _) => None
                   | (ds, rest) => Some ("." ++ ds, rest)
                   end = Some (f, s3) -> String.length s3 <= String.length (String d s2)).
    { destruct (take_digits s2) as [[|x ds] rest] eqn:Ht; [discriminate |].
      intros [= _ <-]. apply take_digits_length in Ht. simpl. lia. }
    destruct d as [[] [] [] [] [] [] [] []]; try exact Hdot; by intros [= _ <-]. }
  destruct fp as [[f s3]|]; [| discriminate]. specialize (Hfp _ _ eq_refl).
  assert (Hda : forall mark r0 e s4,
             match take_digits r0 with
             | (EmptyString, _) => None
             | (ds, rest) => Some (mark ++ ds, rest)
             end = Some (e, s4) -> String.length s4 <= String.length r0).
  { intros mark r0 e s4. destruct (take_digits r0) as [[|x ds] rest] eqn:Ht; [discriminate |].
    intros [= _ <-]. by eapply take_digits_length. }
  set (ep := match s3 with
             | String c0 r0 =>
                 if Ascii.eqb c0 "e" || Ascii.eqb c0 "E" then
                   match r0 with
                   | String "+" r' =>
                       match take_digits r' with
                       | (EmptyString, _) => None
                       | (ds, rest) => Some (String c0 "+" ++ ds, rest)
                       end
                   | String "-" r' =>
                       match take_digits r' with
                       | (EmptyString, _) => None
                       | (ds, rest) => Some (String c0 "-" ++ ds, rest)
                       end
                   | _ =>
                       match take_digits r0 with
                       | (EmptyString, _) => None
                       | (ds, rest) => Some (String c0 "" ++ ds, rest)
                       end
                   end
                 else Some ("", s3)
             | EmptyString => Some ("", s3)
             end).
  assert (Hep : forall e s4, ep = Some (e, s4) -> String.length s4 <= String.length s3).
  { subst ep. intros e s4. destruct s3 as [|c0 s3]; [by intros [= _ <-] |].
    destruct (Ascii.eqb c0 "e" || Ascii.eqb c0 "E"); [| by intros [= _ <-]].
    destruct s3 as [|x s3]; [intros H%Hda; simpl in *; lia |].
    destruct x as [[] [] [] [] [] [] [] []]; intros H%Hda; simpl in *; lia. }
  destruct ep as [[e s4]|]; [| discriminate]. specialize (Hep _ _ eq_refl).
  intros [= _ <-]. simpl in *. lia.
Qed.

Lemma strip_prefix_length (p s r : string) :
  strip_prefix p s = Some r -> String.length r <= String.length s.
Proof.
  unfold strip_prefix. destruct (String.prefix p s); [| discriminate].
  intros [= <-]. apply drop_bytes_length.
Qed.

Lemma starts_with_length (c : ascii) (s r : string) :
  starts_with c s = Some r -> String.length s = S (String.length r).
Proof.
  destruct s as [|c' s]; simpl; [discriminate |].
  destruct (Ascii.eqb c' c); [| discriminate]. by intros [= <-].
Qed.

(** Every value the reader returns has consumed at least one byte. *)
Lemma parse_length (fuel : nat) :
  (forall d s v r, parse_value fuel d s = Some (v, r) -> String.length r < String.length s)
  /\ (forall d s ms r,
        parse_members fuel d s = Some (ms, r) -> String.length r < String.length s)
  /\ (forall d s vs r,
        parse_elems fuel d s = Some (vs, r) -> String.length r < String.length s).
Proof.
  induction fuel as [|fuel (IHv & IHm & IHe)]; [by repeat split |].
  split; [| split]; intros d s.
  - intros v r. change (parse_value (S fuel) d s) with
      (value_body (parse_members fuel) (parse_elems fuel) d s). unfold value_body.
    pose proof (skip_space_length s) as Hs.
    destruct (skip_space s) as [|c r0]; [discriminate |]. simpl in Hs.
    pose proof (skip_space_length r0) as Hr0.
    destruct (Ascii.eqb c "{").
    { destruct (d <? maxNestingDepth)%N; [| discriminate].
      destruct (starts_with "}" (skip_space r0)) as [r'|] eqn:Hw.
      - intros [= _ <-]. apply starts_with_length in Hw. lia.
      - destruct (parse_members fuel (N.succ d) r0) as [[ms r']|] eqn:Hm; [| discriminate].
        intros [= _ <-]. apply IHm in Hm. lia. }
    destruct (Ascii.eqb c "[").
    { destruct (d <? maxNestingDepth)%N; [| discriminate].
      destruct (starts_with "]" (skip_space r0)) as [r'|] eqn:Hw.
      - intros [= _ <-]. apply starts_with_length in Hw. lia.
      - destruct (parse_elems fuel (N.succ d) r0) as [[vs r']|] eqn:He; [| discriminate].
        intros [= _ <-]. apply IHe in He. lia. }
    destruct (Ascii.eqb c quote).
    { destruct (unquote (S (String.length r0)) r0) as [[t r']|] eqn:Hu; [| discriminate].
      intros [= _ <-]. apply unquote_length in Hu. lia. }
    destruct (Ascii.eqb c "t").
    { destruct (strip_prefix "rue" r0) as [r'|] eqn:Hp; [| discriminate].
      intros [= _ <-]. apply strip_prefix_length in Hp. lia. }
    destruct (Ascii.eqb c "f").
    { destruct (strip_prefix "alse" r0) as [r'|] eqn:Hp; [| discriminate].
      intros [= _ <-]. apply strip_prefix_length in Hp. lia. }
    destruct (Ascii.eqb c "n").
    { destruct (strip_prefix "ull" r0) as [r'|] eqn:Hp; [| discriminate].
      intros [= _ <-]. apply strip_prefix_length in Hp. lia. }
    destruct (scan_number (String c r0)) as [[lit r']|] eqn:Hn; [| discriminate].
    intros [= _ <-]. apply scan_number_length in Hn. simpl in Hn. lia.
  - intros ms r. change (parse_members (S fuel) d s) with
      (members_body (parse_value fuel) (parse_members fuel) d s). unfold members_body.
    pose proof (skip_space_length s) as Hs.
    destruct (starts_with quote (skip_space s)) as [r0|] eqn:Hq; [| discriminate].
    apply starts_with_length in Hq.
    destruct (unquote (S (String.length r0)) r0) as [[k r1]|] eqn:Hu; [| discriminate].
    apply unquote_length in Hu. pose proof (skip_space_length r1) as Hr1.
    destruct (starts_with ":" (skip_space r1)) as [r2|] eqn:Hc; [| discriminate].
    apply starts_with_length in Hc.
    destruct (parse_value fuel d r2) as [[v r3]|] eqn:Hv; [| discriminate].
    apply IHv in Hv. pose proof (skip_space_length r3) as Hr3.
    destruct (starts_with "," (skip_space r3)) as [r4|] eqn:Hcm.
    + apply starts_with_length in Hcm.
      destruct (parse_members fuel d r4) as [[ms' r5]|] eqn:Hm; [| discriminate].
      intros [= _ <-]. apply IHm in Hm. lia.
    + destruct (starts_with "}" (skip_space r3)) as [r4|] eqn:Hcl; [| discriminate].
      intros [= _ <-]. apply starts_with_length in Hcl. lia.
  - intros vs r. change (parse_elems (S fuel) d s) with
      (elems_body (parse_value fuel) (parse_elems fuel) d s). unfold elems_body.
    destruct (parse_value fuel d s) as [[v r1]|] eqn:Hv; [| discriminate].
    apply IHv in Hv. pose proof (skip_space_length r1) as Hr1.
    destruct (starts_with "," (skip_space r1)) as [r2|] eqn:Hcm.
    + apply starts_with_length in Hcm.
      destruct (parse_elems fuel d r2) as [[vs' r3]|] eqn:He; [| discriminate].
      intros [= _ <-]. apply IHe in He. lia.
    + destruct (starts_with "]" (skip_space r1)) as [r2|] eqn:Hcl; [| discriminate].
      intros [= _ <-]. apply starts_with_length in Hcl. lia.
Qed.

(** Beyond twice the length of the text, more fuel changes nothing. *)
Lemma parse_fuel_step (fuel : nat) :
  (forall d s, 2 * String.length s + 1 <= fuel ->
               parse_value (S fuel) d s = parse_value fuel d s)
  /\ (forall d s, 2 * String.length s + 1 <= fuel ->
                  parse_members (S fuel) d s = parse_members fuel d s)
  /\ (forall d s, 2 * String.length s + 2 <= fuel ->
                  parse_elems (S fuel) d s = parse_elems fuel d s).
Proof.
  induction fuel as [|fuel (IHv & IHm & IHe)]; [repeat split; intros; lia |].
  destruct (parse_length fuel) as (Lv & _ & _).
  split; [| split]; intros d s Hb.
  - change (value_body (parse_members (S fuel)) (parse_elems (S fuel)) d s
            = value_body (parse_members fuel) (parse_elems fuel) d s).
    unfold value_body.
    pose proof (skip_space_length s) as Hs.
    destruct (skip_space s) as [|c r0]; [reflexivity |]. simpl in Hs.
    rewrite IHm, IHe by lia. reflexivity.
  - change (members_body (parse_value (S fuel)) (parse_members (S fuel)) d s
            = members_body (parse_value fuel) (parse_members fuel) d s).
    unfold members_body.
    pose proof (skip_space_length s) as Hs.
    destruct (starts_with quote (skip_space s)) as [r0|] eqn:Hq; [| reflexivity].
    apply starts_with_length in Hq.
    destruct (unquote (S (String.length r0)) r0) as [[k r1]|] eqn:Hu; [| reflexivity].
    apply unquote_length in Hu. pose proof (skip_space_length r1) as Hr1.
    destruct (starts_with ":" (skip_space r1)) as [r2|] eqn:Hc; [| reflexivity].
    apply starts_with_length in Hc.
    rewrite IHv by lia.
    destruct (parse_value fuel d r2) as [[v r3]|] eqn:Hv; [| reflexivity].
    apply Lv in Hv. pose proof (skip_space_length r3) as Hr3.
    destruct (starts_with "," (skip_space r3)) as [r4|] eqn:Hcm; [| reflexivity].
    apply starts_with_length in Hcm. rewrite IHm by lia. reflexivity.
  - change (elems_body (parse_value (S fuel)) (parse_elems (S fuel)) d s
            = elems_body (parse_value fuel) (parse_elems fuel) d s).
    unfold elems_body.
    rewrite IHv by lia.
    destruct (parse_value fuel d s) as [[v r1]|] eqn:Hv; [| reflexivity].
    apply Lv in Hv. pose proof (skip_space_length r1) as Hr1.
    destruct (starts_with "," (skip_space r1)) as [r2|] eqn:Hcm; [| reflexivity].
    apply starts_with_length in Hcm. rewrite IHe by lia. reflexivity.
Qed.

(** [json_parse] is the reader with any larger amount of fuel. *)
Lemma json_parse_fuel (data : string) (extra : nat) :
  parse_value (extra + S (S (2 * String.length data))) 0 data
  = parse_value (S (S (2 * String.length data))) 0 data.
Proof.
  induction extra as [|extra IH]; [reflexivity |].
  rewrite <- IH. change (S extra + ?n) with (S (extra + n)).
  apply parse_fuel_step. lia.
Qed.

(** So does the reader of string literals: fuel beyond the length of the
    text changes nothing. *)
Lemma unquote_fuel (f1 f2 : nat) (s : string) :
  String.length s < f1 -> String.length s < f2 -> unquote f1 s = unquote f2 s.
Proof.
  revert f2 s. induction f1 as [|f1 IH]; intros [|f2] s H1 H2; try lia.
  assert (Hemit : forall out rest,
             String.length rest < String.length s ->
             match unquote f1 rest with
             | Some (t', rest') => Some (out ++ t', rest')
             | None => None
             end
             = match unquote f2 rest with
               | Some (t', rest') => Some (out ++ t', rest')
               | None => None
               end).
  { intros out rest Hr. rewrite (IH f2 rest) by lia. reflexivity. }
  cbn [unquote]. destruct s as [|c s]; [reflexivity |].
  destruct (Ascii.eqb c quote); [reflexivity |].
  destruct (Ascii.eqb c backslash).
  { destruct s as [|e s]; [reflexivity |].
    destruct (Ascii.eqb e "u") eqn:Heu.
    - apply Ascii.eqb_eq in Heu. subst e.
      destruct (hex4 s) as [[rr r2]|] eqn:Hh; [| reflexivity].
      apply hex4_length in Hh.
      destruct (is_surrogate rr); [| apply Hemit; simpl; lia].
      destruct (getu4 r2) as [[rr1 r3]|] eqn:Hg; [| apply Hemit; simpl; lia].
      apply getu4_length in Hg.
      destruct ((rr <? 0xDC00)%Z && (0xDC00 <=? rr1)%Z && (rr1 <? 0xE000)%Z);
        apply Hemit; simpl; lia.
    - assert (Hgen : match simple_escape e with
                     | Some b =>
                         match unquote f1 s with
                         | Some (t', rest') => Some (String b EmptyString ++ t', rest')
                         | None => None
                         end
                     | None => None
                     end
                     = match simple_escape e with
                       | Some b =>
                           match unquote f2 s with
                           | Some (t', rest') => Some (String b EmptyString ++ t', rest')
                           | None => None
                           end
                       | None => None
                       end).
      { destruct (simple_escape e); [| reflexivity]. apply Hemit. simpl. lia. }
      destruct e as [[] [] [] [] [] [] [] []]; try exact Hgen; discriminate. }
  destruct (byte_val c <? 0x20)%Z; [reflexivity |].
  destruct (byte_val c <? 0x80)%Z; [apply Hemit; simpl; lia |].
  destruct (utf8_width (String c s)) as [|w]; [apply Hemit; simpl; lia |].
  apply Hemit. simpl. pose proof (drop_bytes_length w s). lia.
Qed.

(** ** Frames that differ and decode alike

    White space before the value is skipped by the reader, so a frame
    and the same frame after any number of spaces decode to one event. *)

Lemma string_length_append (s t : string) :
  String.length (s ++ t) = String.length s + String.length t.
Proof.
  induction s as [|c s IH]; [reflexivity |].
  rewrite append_cons. simpl. by rewrite IH.
Qed.

Lemma spaces_length (n : nat) : String.length (spaces n) = n.
Proof. induction n as [|n IH]; [reflexivity |]. simpl. by rewrite IH. Qed.

Lemma skip_space_spaces (n : nat) (s : string) :
  skip_space (spaces n ++ s) = skip_space s.
Proof.
  induction n as [|n IH]; [reflexivity |].
  change (spaces (S n)) with (String " " (spaces n)). rewrite append_cons.
  exact IH.
Qed.

Lemma value_body_skip_space members elems (depth : N) (s s' : string) :
  skip_space s = skip_space s' ->
  value_body members elems depth s = value_body members elems depth s'.
Proof. intros H. unfold value_body. by rewrite H. Qed.

Lemma json_parse_spaces (n : nat) (s : string) :
  json_parse (spaces n ++ s) = json_parse s.
Proof.
  unfold json_parse.
  assert (parse_value (S (S (2 * String.length (spaces n ++ s)))) 0 (spaces n ++ s)
          = parse_value (S (S (2 * String.length s))) 0 s) as ->; [| reflexivity].
  change (parse_value (S ?f) 0 (spaces n ++ s))
    with (value_body (parse_members f) (parse_elems f) 0 (spaces n ++ s)).
  rewrite (value_body_skip_space _ _ _ _ s (skip_space_spaces n s)).
  change (value_body (parse_members ?f) (parse_elems ?f) 0 s)
    with (parse_value (S f) 0 s).
  rewrite string_length_append, spaces_length.
  replace (S (S (2 * (n + String.length s))))
    with (2 * n + S (S (2 * String.length s))) by lia.
  apply json_parse_fuel.
Qed.

Lemma json_Unmarshal_map_spaces (n : nat) (s : string) :
  json_Unmarshal_map (spaces n ++ s) = json_Unmarshal_map s.
Proof. unfold json_Unmarshal_map. by rewrite json_parse_spaces. Qed.

Lemma occurs_in_length (p s : string) :
  occurs_in p s -> String.length p <= String.length s.
Proof.
  intros (u & v & ->). rewrite !string_length_append. lia.
Qed.

(** The frame [{"type":"error"}] and the same frame after a space are
    two payloads, and decode to one error event. *)
Lemma padded_error_frame_decodes_alike :
  spaces 1 ++ js "{'type':'error'}" <> js "{'type':'error'}"
  /\ json_Unmarshal_map (spaces 1 ++ js "{'type':'error'}")
     = inl (mk_event [("type", "error")])
  /\ json_Unmarshal_map (js "{'type':'error'}") = inl (mk_event [("type", "error")])
  /\ has_type (mk_event [("type", "error")]) "error".
Proof.
  split; [discriminate |]. split; [by vm_compute |]. split; [by vm_compute |].
  reflexivity.
Qed.

(** C7, the sentence refuted: whatever [json.Marshal] yields, the error
    made from an error event does not hold the bytes of the frame the
    event came in.  The error is made from the decoded event alone; the
    frame [{"type":"error"}] after more spaces than the error text is
    long decodes to the same event, and is longer than the text that
    should hold it. *)
Lemma frame_not_embedded : ~ exists formatting : Formatting, embeds_frame_verbatim formatting.
Proof.
  intros [formatting H].
  pose (evt := mk_event [("type", "error")]).
  pose (n := S (String.length (Error (fun _ => EmptyString) (server_error evt)))).
  assert (Hdec : json_Unmarshal_map (spaces n ++ js "{'type':'error'}") = inl evt).
  { rewrite json_Unmarshal_map_spaces. by vm_compute. }
  assert (Ht : has_type evt "error") by reflexivity.
  pose proof (occurs_in_length _ _ (H (fun _ => EmptyString) _ evt Hdec Ht)) as Hlen.
  rewrite string_length_append, spaces_length in Hlen. unfold n in Hlen. lia.
Qed.

(** * More properties of the code *)

(** ** The tool *)

(** X14: the product does not depend on the order of the two arguments,
    for all float64 values, infinities and NaN included. *)
Theorem multiply_comm (a b : float64) : multiply a b = multiply b a.
Proof.
  unfold multiply, SFmul.
  destruct a as [sa | sa | | sa ma ea], b as [sb | sb | | sb mb eb];
    try reflexivity; try (by rewrite (xorb_comm sa sb)).
  by rewrite (xorb_comm sa sb), (Pos.mul_comm ma mb), (Z.add_comm ea eb).
Qed.

(** ** Start-up *)

(** X15: the key is handed out exactly when the variable is set to a
    text that is not empty, and then it is that text; a variable set to
    the empty text is refused like one that is not set. *)
Theorem loadAPIKey_spec (env : gmap string string) (key : string) :
  loadAPIKey env = (key, None) <-> env !! "OPENAI_API_KEY" = Some key /\ key <> "".
Proof.
  unfold loadAPIKey, Getenv.
  destruct (env !! "OPENAI_API_KEY") as [k|]; simpl.
  - destruct (String.eqb k "") eqn:He.
    + apply String.eqb_eq in He. subst k. split; [discriminate |].
      intros [[= <-] Hne]. contradiction.
    + apply String.eqb_neq in He. split.
      * intros [= <-]. auto.
      * intros [[= <-] _]. reflexivity.
  - split; [discriminate | intros [[=] _]].
Qed.

Section MoreEngineFacts.

Context {conn : Type} {transport : Transport conn} {formatting : Formatting}.

(** ** Waiting *)

Lemma wait_passes_over (expected : string) (pre : list event) (sels : list select_case) :
  Forall (unrelated expected) pre ->
  waitForEventTypeFromChan expected ((Recv <$> pre) ++ sels)%list
  = waitForEventTypeFromChan expected sels.
Proof.
  induction 1 as [|evt pre [Herr Hexp] _ IH]; [reflexivity |].
  rewrite fmap_cons. simpl.
  apply String.eqb_neq in Herr, Hexp. by rewrite Herr, Hexp.
Qed.

(** X2: a wait passes over every event that is neither an error nor of
    the awaited type, whatever it is, and goes on with what follows: such
    events change neither the result nor what is left for later. *)
Theorem wait_skips_unrelated (expected : string) (pre : list event)
    (sels : list select_case) :
  Forall (unrelated expected) pre ->
  waitForEventTypeFromChan expected ((Recv <$> pre) ++ sels)%list
  = waitForEventTypeFromChan expected sels.
Proof. apply wait_passes_over. Qed.

(** X3: the error check comes first, so a wait for the type ["error"]
    never succeeds: whenever it returns, it returns an error. *)
Theorem wait_for_error_never_succeeds (sels rest : list select_case) :
  waitForEventTypeFromChan "error" sels <> Some (None, rest).
Proof.
  induction sels as [|sel sels IH]; simpl; [discriminate |].
  destruct sel as [e | evt |]; simpl; try discriminate.
  destruct (String.eqb (str_field evt "type") "error"); [discriminate | exact IH].
Qed.

(** ** Streaming *)

Lemma ignored_iter (st : stream_state conn) (evt : event) :
  ignored evt = true -> stream_iter st (Recv evt) = Streaming st.
Proof.
  unfold ignored, stream_iter, on_text_delta, on_args_delta.
  destruct (String.eqb (str_field evt "type") "error"); [discriminate |].
  destruct (String.eqb (str_field evt "type") "response.text.delta").
  { by destruct (evt !! "delta") as [[ | | | d | |]|]. }
  destruct (String.eqb (str_field evt "type") "response.function_call_arguments.delta").
  { by intros ->. }
  destruct (String.eqb (str_field evt "type") "response.function_call_arguments.done");
    [discriminate |].
  by destruct (String.eqb (str_field evt "type") "response.text.done"
               || String.eqb (str_field evt "type") "response.done").
Qed.

(** X1: events the streamer has no case for, text deltas whose [delta]
    is no string and argument deltas without id or text can be taken out
    of the run, wherever they stand: the streamer returns the same
    results and leaves the same connection and output. *)
Theorem stream_passes_over_ignored (st : stream_state conn) (sels : list select_case) :
  stream_loop st sels = stream_loop st (filter (fun sel => kept sel = true) sels).
Proof.
  revert st. induction sels as [|sel sels IH]; intros st; [reflexivity |].
  rewrite filter_cons. destruct (decide (kept sel = true)) as [Hk | Hk].
  - rewrite !stream_loop_cons. destruct (stream_iter st sel); [reflexivity | apply IH].
  - destruct sel as [e | evt |]; simpl in Hk; try congruence.
    assert (Hi : ignored evt = true) by (by destruct (ignored evt)).
    rewrite stream_loop_cons, (ignored_iter st evt Hi). apply IH.
Qed.

(** One pass that does not return keeps the buffers filled. *)
Lemma stream_iter_buffers (st st' : stream_state conn) (sel : select_case) :
  stream_iter st sel = Streaming st' ->
  buffers_filled (argBuf st) -> buffers_filled (argBuf st').
Proof.
  destruct sel as [e | evt |]; simpl; try discriminate.
  destruct (String.eqb (str_field evt "type") "error"); [discriminate |].
  destruct (String.eqb (str_field evt "type") "response.text.delta").
  { intros [= <-]. unfold on_text_delta.
    by destruct (evt !! "delta") as [[ | | | d | |]|]. }
  destruct (String.eqb (str_field evt "type") "response.function_call_arguments.delta").
  { intros [= <-] Hok. unfold on_args_delta.
    destruct (String.eqb (str_field evt "call_id") "") eqn:Hid; [exact Hok |].
    destruct (String.eqb (str_field evt "delta") "") eqn:Hd; [exact Hok |].
    simpl. apply String.eqb_neq in Hid, Hd. intros k b.
    destruct (decide (k = str_field evt "call_id")) as [-> | Hk].
    - rewrite lookup_insert_eq. intros [= <-]. split; [exact Hid |].
      intros [_ ?]%append_eq_nil. contradiction.
    - rewrite lookup_insert_ne by congruence. apply Hok. }
  destruct (String.eqb (str_field evt "type") "response.function_call_arguments.done").
  { unfold on_args_done, invoke_multiply.
    destruct (json_Unmarshal_args _) as [args [err|]]; [discriminate |].
    destruct (sendFunctionOutput _ _ _) as [c' [err|]]; [discriminate |].
    intros [= <-] Hok k b. simpl.
    destruct (decide (k = str_field evt "call_id")) as [-> | Hk].
    - by rewrite lookup_delete_eq.
    - rewrite lookup_delete_ne by congruence. apply Hok. }
  destruct (String.eqb (str_field evt "type") "response.text.done"
            || String.eqb (str_field evt "type") "response.done"); [discriminate |].
  by intros [= <-].
Qed.

(** X4: as long as the streamer has not returned, no buffer is kept
    under the empty call id and no buffer is empty. *)
Theorem buffers_stay_filled (c : conn) (out : string) (sels : list select_case)
    (st : stream_state conn) :
  streamAssistantTextFromChan c out sels = Streaming st ->
  buffers_filled (argBuf st).
Proof.
  unfold streamAssistantTextFromChan.
  assert (Hgen : forall st0, buffers_filled (argBuf st0) ->
                             stream_loop st0 sels = Streaming st ->
                             buffers_filled (argBuf st)).
  { induction sels as [|sel sels IH]; intros st0 Hok; simpl.
    - by intros [= <-].
    - destruct (stream_iter st0 sel) as [| st1] eqn:Hstep; [discriminate |].
      apply IH. by eapply stream_iter_buffers. }
  apply Hgen. intros k b. simpl. by rewrite lookup_empty.
Qed.

(** *** What reaches the connection *)

(** A pass over anything but a done event leaves flag and connection. *)
Lemma stream_iter_quiet (st : stream_state conn) (sel : select_case) :
  no_args_done sel ->
  match stream_iter st sel with
  | Returned _ fu _ c' _ => fu = needFollowUp st /\ c' = ws st
  | Streaming st' => needFollowUp st' = needFollowUp st /\ ws st' = ws st
  end.
Proof.
  destruct sel as [e | evt |]; simpl; [done | | done].
  intros Hnd. apply String.eqb_neq in Hnd. rewrite Hnd.
  destruct (String.eqb (str_field evt "type") "error"); [done |].
  destruct (String.eqb (str_field evt "type") "response.text.delta").
  { unfold on_text_delta. by destruct (evt !! "delta") as [[ | | | d | |]|]. }
  destruct (String.eqb (str_field evt "type") "response.function_call_arguments.delta").
  { unfold on_args_delta.
    by destruct (String.eqb (str_field evt "call_id") ""
                 || String.eqb (str_field evt "delta") ""). }
  by destruct (String.eqb (str_field evt "type") "response.text.done"
               || String.eqb (str_field evt "type") "response.done").
Qed.

(** X5: only a done event makes the streamer write or ask for a
    follow-up: a run without one, however it ends or wherever it stands,
    has the connection it started with and the flag unset. *)
Theorem only_done_events_write (c : conn) (out : string) (sels : list select_case) :
  Forall no_args_done sels ->
  match streamAssistantTextFromChan c out sels with
  | Returned _ fu _ c' _ => fu = false /\ c' = c
  | Streaming st => needFollowUp st = false /\ ws st = c
  end.
Proof.
  unfold streamAssistantTextFromChan.
  assert (Hgen : forall st0, Forall no_args_done sels ->
            match stream_loop st0 sels with
            | Returned _ fu _ c' _ => fu = needFollowUp st0 /\ c' = ws st0
            | Streaming st => needFollowUp st = needFollowUp st0 /\ ws st = ws st0
            end).
  { induction sels as [|sel sels IH]; intros st0 Hall; [done |].
    inversion Hall as [|? ? Hsel Hrest]; subst.
    rewrite stream_loop_cons. pose proof (stream_iter_quiet st0 sel Hsel) as Hq.
    destruct (stream_iter st0 sel) as [| st1]; [exact Hq |].
    destruct Hq as [<- <-]. by apply IH. }
  intros Hall. exact (Hgen (stream_init c out) Hall).
Qed.

(** While the flag is unset, the connection is the one a pass found. *)
Lemma stream_iter_unset (st st' : stream_state conn) (sel : select_case) :
  stream_iter st sel = Streaming st' ->
  needFollowUp st' = false -> needFollowUp st = false /\ ws st' = ws st.
Proof.
  destruct sel as [e | evt |]; simpl; try discriminate.
  destruct (String.eqb (str_field evt "type") "error"); [discriminate |].
  destruct (String.eqb (str_field evt "type") "response.text.delta").
  { intros [= <-]. unfold on_text_delta.
    by destruct (evt !! "delta") as [[ | | | d | |]|]. }
  destruct (String.eqb (str_field evt "type") "response.function_call_arguments.delta").
  { intros [= <-]. unfold on_args_delta.
    by destruct (String.eqb (str_field evt "call_id") ""
                 || String.eqb (str_field evt "delta") ""). }
  destruct (String.eqb (str_field evt "type") "response.function_call_arguments.done").
  { unfold on_args_done, invoke_multiply.
    destruct (json_Unmarshal_args _) as [args [err|]]; [discriminate |].
    destruct (sendFunctionOutput _ _ _) as [c' [err|]]; [discriminate |].
    intros [= <-]. simpl. discriminate. }
  destruct (String.eqb (str_field evt "type") "response.text.done"
            || String.eqb (str_field evt "type") "response.done"); [discriminate |].
  by intros [= <-].
Qed.

(** A pass that returns without an error is a completion: it hands back
    the connection as it stood. *)
Lemma stream_iter_completes (st : stream_state conn) (sel : select_case)
    text fu c' out' :
  stream_iter st sel = Returned text fu None c' out' ->
  fu = needFollowUp st /\ c' = ws st
  /\ out' = stdout st ++ (if printedWithNoTool st then newline else "").
Proof.
  destruct sel as [e | evt |]; simpl; try discriminate.
  destruct (String.eqb (str_field evt "type") "error"); [discriminate |].
  destruct (String.eqb (str_field evt "type") "response.text.delta"); [discriminate |].
  destruct (String.eqb (str_field evt "type") "response.function_call_arguments.delta");
    [discriminate |].
  destruct (String.eqb (str_field evt "type") "response.function_call_arguments.done").
  { unfold on_args_done, invoke_multiply.
    destruct (json_Unmarshal_args _) as [args [err|]]; [discriminate |].
    destruct (sendFunctionOutput _ _ _) as [c1 [err|]]; discriminate. }
  destruct (String.eqb (str_field evt "type") "response.text.done"
            || String.eqb (str_field evt "type") "response.done"); [| discriminate].
  unfold on_done. by intros [= <- <- <- <-].
Qed.

(** X6: a cycle that completes without asking for a follow-up has
    written nothing: it hands back the connection it was given. *)
Theorem no_follow_up_no_write (c : conn) (out : string) (sels : list select_case)
    text c' out' :
  streamAssistantTextFromChan c out sels = Returned text false None c' out' ->
  c' = c.
Proof.
  unfold streamAssistantTextFromChan.
  assert (Hgen : forall st0,
            stream_loop st0 sels = Returned text false None c' out' -> c' = ws st0).
  { induction sels as [|sel sels IH]; intros st0; [discriminate |].
    rewrite stream_loop_cons.
    destruct (stream_iter st0 sel) as [text1 fu1 err1 c1 out1 | st1] eqn:Hstep.
    - intros [= -> -> -> -> ->]. by apply stream_iter_completes in Hstep as (_ & -> & _).
    - intros Hrest. pose proof (IH st1 Hrest) as ->.
      assert (Hfu : needFollowUp st1 = false).
      { destruct (needFollowUp st1) eqn:Hn; [| reflexivity].
        pose proof (stream_loop_followUp sels st1 _ _ _ _ _ Hn Hrest). discriminate. }
      by apply (stream_iter_unset _ _ _ Hstep) in Hfu as [_ ->]. }
  intros H. exact (Hgen (stream_init c out) H).
Qed.

(** X7: a buffered argument text is dispatched once.  After a done
    event for call [C] has been answered, a second done event for [C]
    that brings no arguments of its own finds no buffer and ends the
    cycle with a bad-function-args error; the flag stays set and the one
    frame stays written. *)
Theorem second_done_fails (st : stream_state conn) (C : string) (evt1 evt2 : event)
    (args : multiply_args) (c' : conn) (rest : list select_case) :
  is_args_done C "" evt1 ->
  is_args_done C "" evt2 ->
  json_Unmarshal_args (resolve_args st evt1) = (args, None) ->
  sendFunctionOutput (ws st) C (result_json (multiply (A args) (B args))) = (c', None) ->
  stream_loop st (Recv evt1 :: Recv evt2 :: rest)
  = Returned (full st) true
      (Some (Errorf "bad function args: " (Some (ErrJSON SyntaxError)))) c' (stdout st).
Proof.
  intros (Ht1 & Hid1 & _) (Ht2 & Hid2 & Harg2) Hdec Hsend.
  rewrite stream_loop_cons, iter_args_done by exact Ht1.
  unfold on_args_done at 1. rewrite Hdec, Hid1.
  unfold invoke_multiply. rewrite Hsend.
  rewrite stream_loop_cons, iter_args_done by exact Ht2.
  unfold on_args_done, resolve_args. simpl.
  by rewrite Harg2, Hid2, lookup_delete_eq.
Qed.

(** X8: when the output of a call cannot be sent, the cycle ends with
    that error and the flag as it stood.  The error wraps the marshalling
    error after ["marshal error: "], and then nothing was written, or the
    write error after ["write error: "]. *)
Theorem send_failure_ends_cycle (st : stream_state conn) (evt : event) (C : string)
    (args : multiply_args) (c' : conn) (err : error) (rest : list select_case) :
  has_type evt "response.function_call_arguments.done" ->
  str_field evt "call_id" = C ->
  json_Unmarshal_args (resolve_args st evt) = (args, None) ->
  sendFunctionOutput (ws st) C (result_json (multiply (A args) (B args))) = (c', Some err) ->
  stream_loop st (Recv evt :: rest)
  = Returned (full st) (needFollowUp st) (Some err) c' (stdout st)
  /\ exists cause,
       (err = Errorf "marshal error: " (Some cause) /\ c' = ws st)
       \/ (err = Errorf "write error: " (Some cause)
           /\ exists frame,
                json_Marshal (function_output_msg C (result_json (multiply (A args) (B args))))
                = (frame, None)
                /\ conn_Write (ws st) frame = (c', Some cause)).
Proof.
  intros Ht Hid Hdec Hsend. split.
  - rewrite stream_loop_cons, iter_args_done by exact Ht.
    unfold on_args_done. rewrite Hdec, Hid. unfold invoke_multiply. by rewrite Hsend.
  - revert Hsend. unfold sendFunctionOutput, marshalAndSend.
    destruct (json_Marshal _) as [frame [e|]].
    + intros [= <- <-]. exists e. by left.
    + destruct (conn_Write (ws st) frame) as [c1 [e|]] eqn:Hw; [| discriminate].
      intros [= <- <-]. exists e. right. split; [reflexivity |]. by exists frame.
Qed.

(** *** The end of a cycle *)

Lemma stream_run_fst (st : stream_state conn) (sels : list select_case) :
  (stream_run st sels).1 = stream_loop st sels.
Proof.
  revert st. induction sels as [|sel sels IH]; intros st; [reflexivity |].
  rewrite stream_loop_cons. simpl. destruct (stream_iter st sel); [reflexivity | apply IH].
Qed.

Lemma stream_run_app (st st' : stream_state conn) (l1 l2 : list select_case) :
  stream_loop st l1 = Streaming st' ->
  stream_run st (l1 ++ l2)%list = stream_run st' l2.
Proof.
  revert st. induction l1 as [|sel l1 IH]; intros st.
  { by intros [= <-]. }
  rewrite stream_loop_cons. simpl.
  destruct (stream_iter st sel) as [| st1]; [discriminate | apply IH].
Qed.

(** A cycle that returns has read a run it came through, and one select
    case more, which made it return; the rest is left. *)
Lemma stream_run_returned (st : stream_state conn) (sels rest : list select_case)
    text fu err c' out' :
  stream_run st sels = (Returned text fu err c' out', rest) ->
  exists pre sel st1,
    sels = (pre ++ sel :: rest)%list
    /\ stream_loop st pre = Streaming st1
    /\ stream_iter st1 sel = Returned text fu err c' out'.
Proof.
  revert st. induction sels as [|sel sels IH]; intros st; [discriminate |].
  simpl. destruct (stream_iter st sel) as [text1 fu1 err1 c1 out1 | st1] eqn:Hstep.
  - intros [= -> -> -> -> -> <-]. by exists [], sel, st.
  - intros (pre & sel' & st2 & -> & Hpre & Hlast)%IH.
    exists (sel :: pre), sel', st2. split; [reflexivity |].
    split; [| exact Hlast]. by rewrite stream_loop_cons, Hstep.
Qed.

(** No pass over a text delta returns, and a pass that returns an error
    prints nothing. *)
Lemma stream_iter_returned_out (st : stream_state conn) (sel : select_case)
    text fu err c' out' :
  stream_iter st sel = Returned text fu err c' out' ->
  text_delta_of sel = None
  /\ out' = stdout st ++ match err with
                         | None => if printedWithNoTool st then newline else ""
                         | Some _ => ""
                         end.
Proof.
  destruct sel as [e | evt |]; simpl;
    try (intros [= <- <- <- <- <-]; by rewrite append_nil_r).
  destruct (String.eqb (str_field evt "type") "error") eqn:He.
  { apply String.eqb_eq in He. rewrite He. simpl.
    intros [= <- <- <- <- <-]. by rewrite append_nil_r. }
  destruct (String.eqb (str_field evt "type") "response.text.delta"); [discriminate |].
  destruct (String.eqb (str_field evt "type") "response.function_call_arguments.delta");
    [discriminate |].
  destruct (String.eqb (str_field evt "type") "response.function_call_arguments.done").
  { unfold on_args_done, invoke_multiply.
    destruct (json_Unmarshal_args _) as [args [e|]].
    { intros [= <- <- <- <- <-]. by rewrite append_nil_r. }
    destruct (sendFunctionOutput _ _ _) as [c1 [e|]]; [| discriminate].
    intros [= <- <- <- <- <-]. by rewrite append_nil_r. }
  destruct (String.eqb (str_field evt "type") "response.text.done"
            || String.eqb (str_field evt "type") "response.done"); [| discriminate].
  unfold on_done. by intros [= <- <- <- <- <-].
Qed.

Lemma text_deltas_snoc (pre : list select_case) (sel : select_case) :
  text_delta_of sel = None -> text_deltas (pre ++ [sel]) = text_deltas pre.
Proof.
  intros Hsel. unfold text_deltas. rewrite omap_app. simpl. rewrite Hsel.
  apply app_nil_r.
Qed.

(** X16: however a cycle ends, by a completion marker, an error event,
    a closed queue, a timeout, arguments that do not decode or an output
    that cannot be sent, the text it returns is the concatenation of the
    text deltas it has read, and what it has printed is the prompt and
    that text, with a line end only when it completes; what it has not
    read is left in the queue. *)
Theorem returned_text_is_what_was_read (c : conn) (out : string)
    (sels rest : list select_case) text fu err c' out' :
  stream_run (stream_init c out) sels = (Returned text fu err c' out', rest) ->
  exists used,
    sels = (used ++ rest)%list
    /\ streamAssistantTextFromChan c out used = Returned text fu err c' out'
    /\ text = concat_all (text_deltas used)
    /\ out' = out ++ shown false (text_deltas used)
              ++ match err, text_deltas used with
                 | None, _ :: _ => newline
                 | _, _ => ""
                 end.
Proof.
  intros (pre & sel & st1 & -> & Hpre & Hlast)%stream_run_returned.
  exists (pre ++ [sel])%list.
  pose proof (stream_iter_returns _ _ _ _ _ _ _ Hlast) as [Htext _].
  pose proof (stream_iter_returned_out _ _ _ _ _ _ _ Hlast) as [Hnone Hout].
  pose proof (stream_loop_frame _ _ _ Hpre) as (Hf & _ & Hp & Ho).
  simpl in Hf, Hp, Ho.
  split; [by rewrite <- app_assoc |]. split.
  { unfold streamAssistantTextFromChan. by rewrite stream_loop_app, Hpre, stream_loop_cons, Hlast. }
  rewrite (text_deltas_snoc pre sel Hnone). split; [by rewrite Htext, Hf |].
  rewrite Hout, Ho, Hp, append_assoc.
  destruct err; by destruct (text_deltas pre).
Qed.

End MoreEngineFacts.

(** ** More on the reader *)






Section TurnFacts.

Context {conn : Type} {transport : Transport conn} {formatting : Formatting}.

(** ** The turn *)

Lemma wait_acknowledged (ack : event) (sels : list select_case) :
  has_type ack "conversation.item.created" ->
  waitForEventTypeFromChan "conversation.item.created" (Recv ack :: sels)
  = Some (None, sels).
Proof. unfold has_type. simpl. by intros ->. Qed.

(** X11: what arrives before the acknowledgement of the user's item is
    lost to the turn.  Events of any kind other than an error that come
    before it, text deltas and completion markers among them, are read
    by the wait and dropped: the turn goes as if they had not been
    sent. *)
Theorem turn_drops_early_events (c : conn) (out input : string) (pre : list event)
    (sels : list select_case) (poll : errs_poll) :
  Forall (unrelated "conversation.item.created") pre ->
  run_turn c out input ((Recv <$> pre) ++ sels)%list poll = run_turn c out input sels poll.
Proof.
  intros Hpre. unfold run_turn. by rewrite wait_passes_over.
Qed.

Lemma stream_loop_unset (sels : list select_case) (st st' : stream_state conn) :
  stream_loop st sels = Streaming st' ->
  needFollowUp st' = false -> ws st' = ws st.
Proof.
  revert st. induction sels as [|sel sels IH]; intros st.
  { by intros [= <-]. }
  rewrite stream_loop_cons.
  destruct (stream_iter st sel) as [| st1] eqn:Hstep; [discriminate |].
  intros Hrest Hfu. rewrite (IH _ Hrest Hfu).
  destruct (stream_iter_frame _ _ _ Hstep) as (_ & Hmono & _).
  destruct (needFollowUp st1) eqn:Hn1.
  - destruct (stream_loop_frame _ _ _ Hrest) as (_ & Hm & _).
    rewrite (Hm Hn1) in Hfu. discriminate.
  - by apply (stream_iter_unset _ _ _ Hstep) in Hn1 as [_ ->].
Qed.

Lemma stream_run_cons (st : stream_state conn) (sel : select_case)
    (rest : list select_case) :
  stream_run st (sel :: rest)
  = match stream_iter st sel with
    | Streaming st' => stream_run st' rest
    | r => (r, rest)
    end.
Proof. reflexivity. Qed.

(** The cycle that a completion marker ends. *)
Lemma stream_run_completes (st0 st : stream_state conn) (body rest : list select_case)
    (fin : event) :
  stream_loop st0 body = Streaming st ->
  is_completion fin ->
  stream_run st0 (body ++ Recv fin :: rest)%list
  = (Returned (full st) (needFollowUp st) None (ws st)
       (stdout st ++ (if printedWithNoTool st then newline else "")), rest).
Proof.
  intros Hbody Hfin. rewrite (stream_run_app _ _ _ _ Hbody), stream_run_cons.
  assert (Hstep : stream_iter st (Recv fin) = on_done st).
  { unfold stream_iter. destruct Hfin as [Ht | Ht]; red in Ht; by rewrite Ht. }
  by rewrite Hstep.
Qed.

(** X12: a turn without a tool call.  The user's item is sent, the
    acknowledgement awaited, one response requested and streamed up to
    its completion marker.  The turn leaves the connection as the
    request for the response left it, has printed the prompt and the
    text of the cycle once, a line end after the text and the line end
    of the turn, and leaves what follows the marker in the queue;
    a closed error queue does not stop it. *)
Theorem plain_turn (c c1 c2 : conn) (out input : string) (pre : list event)
    (ack fin : event) (body rest : list select_case) (st : stream_state conn)
    (poll : errs_poll) :
  sendUserInput c input = (c1, None) ->
  Forall (unrelated "conversation.item.created") pre ->
  has_type ack "conversation.item.created" ->
  requestTextResponse c1 defaultInstructions = (c2, None) ->
  streamAssistantTextFromChan c2 out body = Streaming st ->
  needFollowUp st = false ->
  is_completion fin ->
  (poll = ErrsNone \/ poll = ErrsClosed) ->
  run_turn c out input ((Recv <$> pre) ++ Recv ack :: body ++ Recv fin :: rest)%list poll
  = TurnDone c2
      (out ++ shown false (text_deltas body)
           ++ match text_deltas body with [] => "" | _ => newline end
           ++ newline)
      rest.
Proof.
  unfold streamAssistantTextFromChan.
  intros Hsend Hpre Hack Hreq Hbody Hfu Hfin Hpoll.
  unfold run_turn. rewrite Hsend, wait_passes_over, wait_acknowledged, Hreq by assumption.
  rewrite (stream_run_completes _ _ _ _ _ Hbody Hfin), Hfu.
  pose proof (stream_loop_unset _ _ _ Hbody Hfu) as Hws. simpl in Hws.
  destruct (stream_loop_frame _ _ _ Hbody) as (_ & _ & Hp & Ho). simpl in Hp, Ho.
  rewrite Hws, Ho, Hp.
  assert (Hout : forall tds : list string,
            ((out ++ shown false tds)
             ++ (if match tds with [] => false | _ => true end then newline else ""))
            ++ newline
            = out ++ shown false tds ++ match tds with [] => "" | _ => newline end ++ newline).
  { intros tds. destruct tds; by rewrite !append_assoc. }
  destruct Hpoll as [-> | ->]; simpl; by rewrite Hout.
Qed.

(** X13: a turn with a tool call has one follow-up, never more.  When
    the first cycle completes with the flag set, one more response is
    requested on the connection that cycle left and streamed to its
    completion marker; then the turn is over, with the connection as the
    second cycle left it, whether or not that cycle dispatched calls of
    its own: its flag is not looked at. *)
Theorem tool_turn_one_follow_up (c c1 c2 c4 : conn) (out input : string)
    (pre : list event) (ack fin1 fin2 : event) (body1 body2 rest : list select_case)
    (st1 st2 : stream_state conn) (poll : errs_poll) :
  sendUserInput c input = (c1, None) ->
  Forall (unrelated "conversation.item.created") pre ->
  has_type ack "conversation.item.created" ->
  requestTextResponse c1 defaultInstructions = (c2, None) ->
  streamAssistantTextFromChan c2 out body1 = Streaming st1 ->
  needFollowUp st1 = true ->
  is_completion fin1 ->
  requestTextResponse (ws st1) defaultInstructions = (c4, None) ->
  streamAssistantTextFromChan c4
    (out ++ shown false (text_deltas body1)
         ++ match text_deltas body1 with [] => "" | _ => newline end) body2
  = Streaming st2 ->
  is_completion fin2 ->
  (poll = ErrsNone \/ poll = ErrsClosed) ->
  run_turn c out input
    ((Recv <$> pre) ++ Recv ack :: body1 ++ Recv fin1 :: body2 ++ Recv fin2 :: rest)%list poll
  = TurnDone (ws st2)
      (out ++ shown false (text_deltas body1)
           ++ match text_deltas body1 with [] => "" | _ => newline end
           ++ shown false (text_deltas body2)
           ++ match text_deltas body2 with [] => "" | _ => newline end
           ++ newline)
      rest.
Proof.
  unfold streamAssistantTextFromChan.
  intros Hsend Hpre Hack Hreq Hbody1 Hfu Hfin1 Hreq2 Hbody2 Hfin2 Hpoll.
  unfold run_turn. rewrite Hsend, wait_passes_over, wait_acknowledged, Hreq by assumption.
  rewrite (stream_run_completes _ _ _ _ _ Hbody1 Hfin1), Hfu, Hreq2.
  destruct (stream_loop_frame _ _ _ Hbody1) as (_ & _ & Hp1 & Ho1). simpl in Hp1, Ho1.
  assert (Hout1 : stdout st1 ++ (if printedWithNoTool st1 then newline else "")
                  = out ++ shown false (text_deltas body1)
                    ++ match text_deltas body1 with [] => "" | _ => newline end).
  { rewrite Ho1, Hp1. destruct (text_deltas body1); by rewrite !append_assoc. }
  rewrite Hout1, (stream_run_completes _ _ _ _ _ Hbody2 Hfin2).
  destruct (stream_loop_frame _ _ _ Hbody2) as (_ & _ & Hp2 & Ho2). simpl in Hp2, Ho2.
  assert (Hout2 : (stdout st2 ++ (if printedWithNoTool st2 then newline else "")) ++ newline
                  = out ++ shown false (text_deltas body1)
                    ++ match text_deltas body1 with [] => "" | _ => newline end
                    ++ shown false (text_deltas body2)
                    ++ match text_deltas body2 with [] => "" | _ => newline end
                    ++ newline).
  { rewrite Ho2, Hp2. destruct (text_deltas body2); by rewrite !append_assoc. }
  destruct Hpoll as [-> | ->]; simpl; by rewrite Hout2.
Qed.

End TurnFacts.

(** ** The numbers of a call *)

Lemma shr_1_nonneg (mrs : shr_record) : (0 <= shr_m mrs)%Z -> (0 <= shr_m (shr_1 mrs))%Z.
Proof.
  destruct mrs as [m r s]. simpl.
  destruct m as [|[p|p|]|[p|p|]]; simpl; lia.
Qed.

Lemma iter_shr_1_nonneg (p : positive) (mrs : shr_record) :
  (0 <= shr_m mrs)%Z -> (0 <= shr_m (SpecFloat.iter_pos shr_1 p mrs))%Z.
Proof.
  revert mrs. induction p as [p IH | p IH |]; intros mrs H; simpl.
  - apply IH, IH, shr_1_nonneg, H.
  - apply IH, IH, H.
  - apply shr_1_nonneg, H.
Qed.

Lemma shr_fexp_nonneg (m e : Z) (l : location) :
  (0 <= m)%Z -> (0 <= shr_m (shr_fexp 53 1024 m e l).1)%Z.
Proof.
  intros Hm. unfold shr_fexp, shr.
  assert (H0 : (0 <= shr_m (shr_record_of_loc m l))%Z).
  { by destruct l as [|[]]. }
  destruct (fexp 53 1024 (Zdigits2 m + e) - e)%Z; simpl; try exact H0.
  by apply iter_shr_1_nonneg.
Qed.

Lemma round_nearest_even_nonneg (m : Z) (l : location) :
  (0 <= m)%Z -> (0 <= round_nearest_even m l)%Z.
Proof.
  intros Hm. destruct l as [|[]]; simpl; try lia.
  destruct (Z.even m); lia.
Qed.

(** Rounding a mantissa that is not negative never gives NaN. *)
Lemma binary_round_aux_not_nan (s : bool) (m e : Z) (l : location) :
  (0 <= m)%Z -> binary_round_aux 53 1024 s m e l <> S754_nan.
Proof.
  intros Hm. unfold binary_round_aux.
  pose proof (shr_fexp_nonneg m e l Hm) as H1.
  destruct (shr_fexp 53 1024 m e l) as [mrs' e']. simpl in H1.
  pose proof (shr_fexp_nonneg _ e' loc_Exact
                (round_nearest_even_nonneg _ (loc_of_shr_record mrs') H1)) as H2.
  destruct (shr_fexp 53 1024 _ e' loc_Exact) as [mrs'' e'']. simpl in H2.
  destruct (shr_m mrs'') as [|p|p]; [discriminate | | lia].
  by destruct (e'' <=? 1024 - 53)%Z.
Qed.

Lemma binary_round_not_nan (s : bool) (m : positive) (e : Z) :
  binary_round 53 1024 s m e <> S754_nan.
Proof.
  unfold binary_round. destruct (shl_align m e _) as [mz ez].
  by apply binary_round_aux_not_nan.
Qed.

Lemma ParseFloat_finite (lit : string) (f : float64) :
  ParseFloat lit = Some f -> finite_or_zero f.
Proof.
  unfold ParseFloat. destruct (decimal_parts lit) as [[neg m] e].
  assert (Hnn : round_decimal neg m e <> S754_nan).
  { unfold round_decimal. destruct m as [|p|p]; try discriminate.
    destruct (0 <=? e)%Z.
    - destruct (Z.pos p * 10 ^ e)%Z; try discriminate. apply binary_round_not_nan.
    - destruct (2 * _ + _)%Z; try discriminate. apply binary_round_not_nan. }
  destruct (round_decimal neg m e); try discriminate; try contradiction;
    by intros [= <-].
Qed.

Lemma decode_member_finite (st : multiply_args * option json_err) (kv : string * jvalue) :
  finite_or_zero (A st.1) /\ finite_or_zero (B st.1) ->
  finite_or_zero (A (decode_member st kv).1) /\ finite_or_zero (B (decode_member st kv).1).
Proof.
  destruct st as [[a b] err]. simpl. intros [Ha Hb].
  unfold decode_member, store_float64. simpl.
  destruct (field_of_key kv.1) as [[|]|]; simpl; [| | done];
    destruct kv.2; simpl; try done;
    destruct (ParseFloat lit) eqn:Hp; simpl; try done;
    apply ParseFloat_finite in Hp; done.
Qed.

Lemma json_Unmarshal_args_finite (argsJSON : string) :
  finite_or_zero (A (json_Unmarshal_args argsJSON).1)
  /\ finite_or_zero (B (json_Unmarshal_args argsJSON).1).
Proof.
  unfold json_Unmarshal_args.
  destruct (json_parse argsJSON) as [[| | | | |ms]|]; try done.
  assert (Hgen : forall st, finite_or_zero (A st.1) /\ finite_or_zero (B st.1) ->
            finite_or_zero (A (fold_left decode_member ms st).1)
            /\ finite_or_zero (B (fold_left decode_member ms st).1)).
  { induction ms as [|kv ms IH]; intros st Hst; [exact Hst |].
    simpl. apply IH. by apply decode_member_finite. }
  by apply Hgen.
Qed.

(** X18: whatever the argument text, the two numbers decoded from it
    are zero or finite, never an infinity and never NaN, so the product
    the tool sends back is never NaN (it can be an infinity, when the
    product of two finite numbers overflows). *)
Theorem tool_result_never_nan (argsJSON : string) :
  let args := (json_Unmarshal_args argsJSON).1 in
  finite_or_zero (A args) /\ finite_or_zero (B args)
  /\ multiply (A args) (B args) <> S754_nan.
Proof.
  intros args. destruct (json_Unmarshal_args_finite argsJSON) as [Ha Hb].
  fold args in Ha, Hb. split; [exact Ha |]. split; [exact Hb |].
  unfold multiply, SFmul.
  destruct (A args) as [sa | sa | | sa ma ea]; try contradiction;
    destruct (B args) as [sb | sb | | sb mb eb]; try contradiction; try discriminate.
  apply binary_round_aux_not_nan. lia.
Qed.

Section ReaderAndStream.

Context {conn : Type} {transport : Transport conn} {formatting : Formatting}.




End ReaderAndStream.

(** ** The theorems at work *)

Section Examples.

#[local] Existing Instance sample_formatting.

(** The payload [{"a":3}] has no member ["b"], and the streamer does not
    reject it: it writes the output of [multiply(3, 0)]. *)
Lemma missing_b_not_rejected : ~ rejects_missing_b.
Proof.
  intros H.
  destruct (H (list string) log_transport sample_formatting (stream_init [] "")
              (args_done_event "call_1" (js "{'a':3}")) [("a", JNumber "3")])
    as [err Herr].
  - reflexivity.
  - reflexivity.
  - repeat constructor. discriminate.
  - vm_compute in Herr. discriminate.
Qed.



(** The payload [{"a":3}] is dispatched with [b = 0], and ends in no
    argument error. *)
Lemma missing_b_decodes_to_zero_witness :
  has_type (args_done_event "call_1" (js "{'a':3}")) "response.function_call_arguments.done"
  /\ json_parse (resolve_args (stream_init ([] : list string) "")
                   (args_done_event "call_1" (js "{'a':3}")))
     = Some (JObject [("a", JNumber "3")])
  /\ Forall (fun kv : string * jvalue => field_of_key kv.1 <> Some FieldB)
       [("a", JNumber "3")]
  /\ json_Unmarshal_args (js "{'a':3,'b':4}")
     = (MultiplyArgs (float64_of_Z 3) (float64_of_Z 4), None)
  /\ forallb member_decodes [("a", JNumber "3")] = true
  /\ json_Unmarshal_args (js "{'a':3}")
     = (MultiplyArgs (float64_of_Z 3) float64_zero, None)
  /\ (exists a : float64,
        json_Unmarshal_args (js "{'a':3}") = (MultiplyArgs a float64_zero, None)
        /\ stream_iter (stream_init [] "") (Recv (args_done_event "call_1" (js "{'a':3}")))
           = invoke_multiply (stream_init [] "") "call_1" (MultiplyArgs a float64_zero))
  /\ (forall text fu e c out,
        stream_iter (stream_init [] "") (Recv (args_done_event "call_1" (js "{'a':3}")))
        <> Returned text fu (Some (Errorf "bad function args: " e)) c out)
  /\ stream_iter (stream_init [] "") (Recv (args_done_event "call_1" (js "{'a':3}")))
     = Streaming (StreamState "" true false ∅ [output_frame "call_1" "0"] "").
Proof.
  assert (Ht : has_type (args_done_event "call_1" (js "{'a':3}"))
                 "response.function_call_arguments.done") by reflexivity.
  assert (Hp : json_parse (resolve_args (stream_init ([] : list string) "")
                             (args_done_event "call_1" (js "{'a':3}")))
               = Some (JObject [("a", JNumber "3")])) by (vm_compute; reflexivity).
  assert (Hm : Forall (fun kv : string * jvalue => field_of_key kv.1 <> Some FieldB)
                 [("a", JNumber "3")]) by (repeat constructor; discriminate).
  assert (Hall : forallb member_decodes [("a", JNumber "3")] = true)
    by (vm_compute; reflexivity).
  destruct (missing_b_decodes_to_zero (stream_init [] "")
              (args_done_event "call_1" (js "{'a':3}")) _ Ht Hp Hm) as [Hok Hrest].
  rewrite Hall in Hrest. destruct Hrest as (a & Hdec & Hiter & Hno).
  split; [exact Ht |]. split; [exact Hp |]. split; [exact Hm |].
  split; [exact Hok |]. split; [exact Hall |].
  split; [vm_compute; reflexivity |].
  split; [exists a; split; [exact Hdec | exact Hiter] |].
  split; [exact Hno |]. vm_compute. reflexivity.
Defined.

(** The payload [{"a":"x"}] has no member ["b"] either, and is rejected:
    for the string held by ["a"], not for the missing member. *)
Lemma missing_b_bad_a :
  json_parse (js "{'a':'x'}") = Some (JObject [("a", JString "x")])
  /\ forallb member_decodes [("a", JString "x")] = false
  /\ stream_iter (stream_init ([] : list string) "")
       (Recv (args_done_event "call_1" (js "{'a':'x'}")))
     = Returned "" false
         (Some (Errorf "bad function args: " (Some (ErrJSON UnmarshalTypeError)))) [] "".
Proof. split; [by vm_compute |]. split; by vm_compute. Qed.

(** A done event without [arguments], for a call whose buffer holds
    [{"a":6,"b":7}]: one frame with the result 42, then a completed cycle
    that asks for a follow-up. *)
Lemma done_dispatches_tool_witness :
  let st := StreamState "" false false {[ "call_1" := js "{'a':6,'b':7}" ]}
              ([] : list string) "" in
  let evt := args_done_bare "call_1" in
  has_type evt "response.function_call_arguments.done"
  /\ str_field evt "call_id" = "call_1"
  /\ json_Unmarshal_args (resolve_args st evt)
     = (MultiplyArgs (float64_of_Z 6) (float64_of_Z 7), None)
  /\ sendFunctionOutput (ws st) "call_1"
       (result_json (multiply (float64_of_Z 6) (float64_of_Z 7)))
     = ([output_frame "call_1" "42"], None)
  /\ resolve_args st evt = js "{'a':6,'b':7}"
  /\ stream_iter st (Recv evt)
     = Streaming (StreamState "" true false (delete "call_1" (argBuf st))
                    [output_frame "call_1" "42"] "")
  /\ stream_loop st [Recv evt; Recv completion_event]
     = Returned "" true None [output_frame "call_1" "42"] "".
Proof.
  intros st evt.
  assert (Ht : has_type evt "response.function_call_arguments.done") by reflexivity.
  assert (Hid : str_field evt "call_id" = "call_1") by reflexivity.
  assert (Hdec : json_Unmarshal_args (resolve_args st evt)
                 = (MultiplyArgs (float64_of_Z 6) (float64_of_Z 7), None))
    by (vm_compute; reflexivity).
  assert (Hsend : sendFunctionOutput (ws st) "call_1"
                    (result_json (multiply (A (MultiplyArgs (float64_of_Z 6) (float64_of_Z 7)))
                                    (B (MultiplyArgs (float64_of_Z 6) (float64_of_Z 7)))))
                  = ([output_frame "call_1" "42"], None))
    by (vm_compute; reflexivity).
  destruct (done_dispatches_tool st evt "call_1" _ _ Ht Hid Hdec Hsend)
    as (Hres & _ & Hstep & _ & _).
  split; [exact Ht |]. split; [exact Hid |]. split; [exact Hdec |].
  split; [exact Hsend |]. split; [rewrite Hres; reflexivity |].
  split; [exact Hstep |]. vm_compute. reflexivity.
Defined.

(** A delta without call id, and one without text. *)
Lemma empty_args_delta_ignored_witness :
  let st := StreamState "Hi" false true {[ "call_1" := "{" ]} ([] : list string) "Chatbot> Hi" in
  has_type (args_delta_event "" "x") "response.function_call_arguments.delta"
  /\ (str_field (args_delta_event "" "x") "call_id" = ""
      \/ str_field (args_delta_event "" "x") "delta" = "")
  /\ stream_iter st (Recv (args_delta_event "" "x")) = Streaming st
  /\ stream_iter st (Recv (args_delta_event "call_1" "")) = Streaming st.
Proof.
  intros st.
  assert (Ht : has_type (args_delta_event "" "x") "response.function_call_arguments.delta")
    by reflexivity.
  assert (He : str_field (args_delta_event "" "x") "call_id" = ""
               \/ str_field (args_delta_event "" "x") "delta" = "")
    by (left; reflexivity).
  split; [exact Ht |]. split; [exact He |]. split.
  - exact (empty_args_delta_ignored st _ Ht He).
  - apply empty_args_delta_ignored; [reflexivity | right; reflexivity].
Defined.

(** A done event for a call that never sent a delta. *)
Lemma done_without_arguments_fails_witness :
  let st := stream_init ([] : list string) "" in
  has_type (args_done_bare "call_9") "response.function_call_arguments.done"
  /\ str_field (args_done_bare "call_9") "arguments" = ""
  /\ argBuf st !! str_field (args_done_bare "call_9") "call_id" = None
  /\ streamAssistantTextFromChan [] "" [Recv (args_done_bare "call_9"); Recv completion_event]
     = Returned "" false
         (Some (Errorf "bad function args: " (Some (ErrJSON SyntaxError)))) [] "".
Proof.
  intros st.
  assert (Ht : has_type (args_done_bare "call_9") "response.function_call_arguments.done")
    by reflexivity.
  assert (Ha : str_field (args_done_bare "call_9") "arguments" = "") by reflexivity.
  assert (Hb : argBuf st !! str_field (args_done_bare "call_9") "call_id" = None)
    by reflexivity.
  split; [exact Ht |]. split; [exact Ha |]. split; [exact Hb |].
  exact (proj2 (proj2 (done_without_arguments_fails st _ [Recv completion_event] Ht Ha Hb))).
Defined.

(** [{"a":6,] and ["b":7}] in two deltas against the whole text in the
    done event. *)
Lemma split_arguments_reassemble_witness :
  let st := stream_init ([] : list string) "" in
  let frags := [js "{'a':6,"; js "'b':7}"] in
  let doneA := args_done_bare "call_1" in
  let doneB := args_done_event "call_1" (js "{'a':6,'b':7}") in
  "call_1" <> ""
  /\ argBuf st !! "call_1" = None
  /\ Forall2 (is_args_delta "call_1") frags six_seven_deltas
  /\ is_args_done "call_1" "" doneA
  /\ is_args_done "call_1" (concat_all frags) doneB
  /\ stream_loop st ((Recv <$> six_seven_deltas) ++ [Recv doneA; Recv completion_event])%list
     = stream_loop st [Recv doneB; Recv completion_event]
  /\ stream_loop st [Recv doneB; Recv completion_event]
     = Returned "" true None [output_frame "call_1" "42"] "".
Proof.
  intros st frags doneA doneB.
  assert (HC : "call_1" <> "") by discriminate.
  assert (Hfresh : argBuf st !! "call_1" = None) by reflexivity.
  assert (Hdevs : Forall2 (is_args_delta "call_1") frags six_seven_deltas)
    by (repeat constructor).
  assert (HA : is_args_done "call_1" "" doneA) by (repeat split).
  assert (HB : is_args_done "call_1" (concat_all frags) doneB) by (repeat split).
  destruct (split_arguments_reassemble st "call_1" frags six_seven_deltas doneA doneB
              [Recv completion_event] HC Hfresh Hdevs HA HB) as (st1 & _ & _ & Heq).
  split; [exact HC |]. split; [exact Hfresh |]. split; [exact Hdevs |].
  split; [exact HA |]. split; [exact HB |]. split; [exact Heq |].
  vm_compute. reflexivity.
Defined.

(** Two calls whose deltas interleave; the call that started second is
    done first and is answered first. *)
Lemma interleaved_calls_stay_apart_witness :
  let pre := [Recv (args_delta_event "call_2" (js "{'a':2,"));
              Recv (args_delta_event "call_1" (js "{'a':6,"));
              Recv (args_delta_event "call_1" (js "'b':7}"))] in
  let mid := [Recv (args_delta_event "call_2" (js "'b':5}"))] in
  let done1 := args_done_bare "call_1" in
  let done2 := args_done_bare "call_2" in
  "call_1" <> "call_2" /\ "call_1" <> "" /\ "call_2" <> ""
  /\ Forall delivers_args_delta pre /\ Forall delivers_args_delta mid
  /\ is_args_done "call_1" "" done1 /\ is_args_done "call_2" "" done2
  /\ json_Unmarshal_args (concat_all (arg_fragments "call_1" pre))
     = (MultiplyArgs (float64_of_Z 6) (float64_of_Z 7), None)
  /\ json_Unmarshal_args (concat_all (arg_fragments "call_2" (pre ++ mid)))
     = (MultiplyArgs (float64_of_Z 2) (float64_of_Z 5), None)
  /\ exists st2,
       streamAssistantTextFromChan [] "" (pre ++ Recv done1 :: mid ++ [Recv done2])%list
       = Streaming st2
       /\ ws st2 = [output_frame "call_1" "42"; output_frame "call_2" "10"].
Proof.
  intros pre mid done1 done2.
  assert (H12 : "call_1" <> "call_2") by discriminate.
  assert (H1 : "call_1" <> "") by discriminate.
  assert (H2 : "call_2" <> "") by discriminate.
  assert (Hpre : Forall delivers_args_delta pre) by (repeat constructor).
  assert (Hmid : Forall delivers_args_delta mid) by (repeat constructor).
  assert (Hd1 : is_args_done "call_1" "" done1) by (repeat split).
  assert (Hd2 : is_args_done "call_2" "" done2) by (repeat split).
  assert (Hdec1 : json_Unmarshal_args (concat_all (arg_fragments "call_1" pre))
                  = (MultiplyArgs (float64_of_Z 6) (float64_of_Z 7), None))
    by (vm_compute; reflexivity).
  assert (Hdec2 : json_Unmarshal_args (concat_all (arg_fragments "call_2" (pre ++ mid)))
                  = (MultiplyArgs (float64_of_Z 2) (float64_of_Z 5), None))
    by (vm_compute; reflexivity).
  destruct (interleaved_calls_stay_apart [] "" pre mid done1 done2 "call_1" "call_2"
              H12 H1 H2 Hpre Hmid Hd1 Hd2) as (st1 & _ & _ & _ & _ & Hdispatch).
  destruct (Hdispatch _ _ [output_frame "call_1" "42"]
              [output_frame "call_1" "42"; output_frame "call_2" "10"] Hdec1
              ltac:(vm_compute; reflexivity) Hdec2 ltac:(vm_compute; reflexivity))
    as (st2 & Hrun & Hws & _).
  split; [exact H12 |]. split; [exact H1 |]. split; [exact H2 |].
  split; [exact Hpre |]. split; [exact Hmid |]. split; [exact Hd1 |]. split; [exact Hd2 |].
  split; [exact Hdec1 |]. split; [exact Hdec2 |].
  exists st2. split; [exact Hrun | exact Hws].
Defined.

(** An error event after a greeting; the completion marker behind it
    is not consumed. *)
Lemma server_error_aborts_witness :
  let evt := error_event "rate limit" in
  streamAssistantTextFromChan [] "" greeting_deltas
  = Streaming (StreamState "Hello! How can I help?" false true ∅ []
                 "Chatbot> Hello! How can I help?")
  /\ waitForEventTypeFromChan "conversation.item.created" greeting_deltas = None
  /\ has_type evt "error"
  /\ streamAssistantTextFromChan [] "" (greeting_deltas ++ [Recv evt; Recv completion_event])
     = Returned "Hello! How can I help?" false
         (Some (Errorf (js "server error: {'message':'rate limit','type':'error'}") None))
         [] "Chatbot> Hello! How can I help?"
  /\ waitForEventTypeFromChan "conversation.item.created"
       (greeting_deltas ++ [Recv evt; Recv completion_event])
     = Some (Some (Errorf (js "server error: {'message':'rate limit','type':'error'}") None),
             [Recv completion_event]).
Proof.
  intros evt.
  assert (Hpre : streamAssistantTextFromChan [] "" greeting_deltas
                 = Streaming (StreamState "Hello! How can I help?" false true ∅ []
                                "Chatbot> Hello! How can I help?"))
    by (vm_compute; reflexivity).
  assert (Hw : waitForEventTypeFromChan "conversation.item.created" greeting_deltas = None)
    by (vm_compute; reflexivity).
  assert (Ht : has_type evt "error") by reflexivity.
  destruct (server_error_aborts [] "" "conversation.item.created" greeting_deltas
              greeting_deltas [Recv completion_event] _ evt Hpre Hw Ht) as (Hs & Hwait & _).
  split; [exact Hpre |]. split; [exact Hw |]. split; [exact Ht |].
  split; [exact Hs | exact Hwait].
Defined.

(** The three ways a stream fails after a greeting. *)
Lemma failure_causes_distinct_witness :
  let evt := error_event "rate limit" in
  streamAssistantTextFromChan [] "" greeting_deltas
  = Streaming (StreamState "Hello! How can I help?" false true ∅ []
                 "Chatbot> Hello! How can I help?")
  /\ waitForEventTypeFromChan "conversation.item.created" greeting_deltas = None
  /\ has_type evt "error"
  /\ exists closed timeout server : error,
       streamAssistantTextFromChan [] "" (greeting_deltas ++ [ChanClosed])
       = Returned "Hello! How can I help?" false (Some closed) []
           "Chatbot> Hello! How can I help?"
       /\ streamAssistantTextFromChan [] "" (greeting_deltas ++ [CtxDone DeadlineExceeded])
          = Returned "Hello! How can I help?" false (Some timeout) []
              "Chatbot> Hello! How can I help?"
       /\ streamAssistantTextFromChan [] "" (greeting_deltas ++ [Recv evt])
          = Returned "Hello! How can I help?" false (Some server) []
              "Chatbot> Hello! How can I help?"
       /\ Error (fun _ => "") closed <> Error (fun _ => "") timeout
       /\ Error (fun _ => "") closed <> Error (fun _ => "") server
       /\ Error (fun _ => "") timeout <> Error (fun _ => "") server.
Proof.
  intros evt.
  assert (Hpre : streamAssistantTextFromChan [] "" greeting_deltas
                 = Streaming (StreamState "Hello! How can I help?" false true ∅ []
                                "Chatbot> Hello! How can I help?"))
    by (vm_compute; reflexivity).
  assert (Hw : waitForEventTypeFromChan "conversation.item.created" greeting_deltas = None)
    by (vm_compute; reflexivity).
  assert (Ht : has_type evt "error") by reflexivity.
  destruct (failure_causes_distinct (fun _ => "") [] "" "conversation.item.created"
              greeting_deltas greeting_deltas _ evt DeadlineExceeded Hpre Hw Ht)
    as (closed & timeout & server & wclosed & wtimeout & wserver
        & H1 & H2 & H3 & _ & _ & _ & N1 & N2 & N3 & _).
  split; [exact Hpre |]. split; [exact Hw |]. split; [exact Ht |].
  exists closed, timeout, server. auto 10.
Defined.


End Examples.

(** ** The further theorems at work *)

Section MoreExamples.

#[local] Existing Instance sample_formatting.

(** Two events of other types, then the acknowledgement. *)
Lemma wait_skips_unrelated_witness :
  Forall (unrelated "conversation.item.created") [session_updated_event; completion_event]
  /\ waitForEventTypeFromChan "conversation.item.created"
       ((Recv <$> [session_updated_event; completion_event]) ++ [Recv ack_event; ChanClosed])
     = Some (None, [ChanClosed]).
Proof.
  assert (H : Forall (unrelated "conversation.item.created")
                [session_updated_event; completion_event])
    by (repeat constructor; discriminate).
  split; [exact H |].
  rewrite (wait_skips_unrelated "conversation.item.created" _ [Recv ack_event; ChanClosed] H).
  reflexivity.
Defined.

(** The first fragment of a call, alone in its buffer. *)
Lemma buffers_stay_filled_witness :
  streamAssistantTextFromChan ([] : list string) ""
    [Recv (args_delta_event "" "x"); Recv (args_delta_event "call_1" "");
     Recv (args_delta_event "call_1" (js "{'a':6,"))]
  = Streaming (StreamState "" false false {[ "call_1" := js "{'a':6," ]} [] "")
  /\ buffers_filled ({[ "call_1" := js "{'a':6," ]} : gmap string string).
Proof.
  assert (H : streamAssistantTextFromChan ([] : list string) ""
                [Recv (args_delta_event "" "x"); Recv (args_delta_event "call_1" "");
                 Recv (args_delta_event "call_1" (js "{'a':6,"))]
              = Streaming (StreamState "" false false {[ "call_1" := js "{'a':6," ]} [] ""))
    by (vm_compute; reflexivity).
  split; [exact H |].
  exact (buffers_stay_filled _ _ _ _ H).
Defined.

(** A greeting and a closed queue: nothing is written. *)
Lemma only_done_events_write_witness :
  Forall no_args_done (greeting_deltas ++ [ChanClosed])
  /\ streamAssistantTextFromChan ([] : list string) "" (greeting_deltas ++ [ChanClosed])
     = Returned "Hello! How can I help?" false
         (Some (Errorf "events channel closed during stream" None)) []
         "Chatbot> Hello! How can I help?"
  /\ match streamAssistantTextFromChan ([] : list string) "" (greeting_deltas ++ [ChanClosed]) with
     | Returned _ fu _ c' _ => fu = false /\ c' = []
     | Streaming st => needFollowUp st = false /\ ws st = []
     end.
Proof.
  assert (H : Forall no_args_done (greeting_deltas ++ [ChanClosed]))
    by (repeat constructor; discriminate).
  split; [exact H |]. split; [vm_compute; reflexivity |].
  exact (only_done_events_write ([] : list string) "" _ H).
Defined.

(** A greeting after an earlier frame: the frame is all there is. *)
Lemma no_follow_up_no_write_witness :
  streamAssistantTextFromChan ["earlier frame"] ""
    (greeting_deltas ++ [Recv completion_event])
  = Returned "Hello! How can I help?" false None ["earlier frame"]
      ("Chatbot> Hello! How can I help?" ++ newline)
  /\ ["earlier frame"] = ["earlier frame"].
Proof.
  assert (H : streamAssistantTextFromChan ["earlier frame"] ""
                (greeting_deltas ++ [Recv completion_event])
              = Returned "Hello! How can I help?" false None ["earlier frame"]
                  ("Chatbot> Hello! How can I help?" ++ newline))
    by (vm_compute; reflexivity).
  split; [exact H |].
  exact (no_follow_up_no_write _ _ _ _ _ _ H).
Defined.

(** The done event of a call, twice. *)
Lemma second_done_fails_witness :
  let st := StreamState "" false false {[ "call_1" := js "{'a':6,'b':7}" ]}
              ([] : list string) "" in
  let evt := args_done_bare "call_1" in
  is_args_done "call_1" "" evt
  /\ json_Unmarshal_args (resolve_args st evt)
     = (MultiplyArgs (float64_of_Z 6) (float64_of_Z 7), None)
  /\ sendFunctionOutput (ws st) "call_1"
       (result_json (multiply (float64_of_Z 6) (float64_of_Z 7)))
     = ([output_frame "call_1" "42"], None)
  /\ stream_loop st [Recv evt; Recv evt; Recv completion_event]
     = Returned "" true
         (Some (Errorf "bad function args: " (Some (ErrJSON SyntaxError))))
         [output_frame "call_1" "42"] "".
Proof.
  intros st evt.
  assert (Hd : is_args_done "call_1" "" evt) by (repeat split).
  assert (Hdec : json_Unmarshal_args (resolve_args st evt)
                 = (MultiplyArgs (float64_of_Z 6) (float64_of_Z 7), None))
    by (vm_compute; reflexivity).
  assert (Hsend : sendFunctionOutput (ws st) "call_1"
                    (result_json (multiply (A (MultiplyArgs (float64_of_Z 6) (float64_of_Z 7)))
                                    (B (MultiplyArgs (float64_of_Z 6) (float64_of_Z 7)))))
                  = ([output_frame "call_1" "42"], None))
    by (vm_compute; reflexivity).
  split; [exact Hd |]. split; [exact Hdec |]. split; [exact Hsend |].
  exact (second_done_fails st "call_1" evt evt _ _ [Recv completion_event] Hd Hd Hdec Hsend).
Defined.

(** A call on a connection that refuses every write. *)
Lemma send_failure_ends_cycle_witness :
  let st := StreamState "Hi" false true {[ "call_1" := js "{'a':6,'b':7}" ]}
              ([] : list string) "Chatbot> Hi" in
  let evt := args_done_bare "call_1" in
  has_type evt "response.function_call_arguments.done"
  /\ str_field evt "call_id" = "call_1"
  /\ json_Unmarshal_args (resolve_args st evt)
     = (MultiplyArgs (float64_of_Z 6) (float64_of_Z 7), None)
  /\ sendFunctionOutput (transport := broken_transport) (ws st) "call_1"
       (result_json (multiply (float64_of_Z 6) (float64_of_Z 7)))
     = ([], Some (Errorf "write error: " (Some (ErrConn "broken pipe"))))
  /\ stream_loop (transport := broken_transport) st [Recv evt; Recv completion_event]
     = Returned "Hi" false
         (Some (Errorf "write error: " (Some (ErrConn "broken pipe")))) [] "Chatbot> Hi".
Proof.
  intros st evt.
  assert (Ht : has_type evt "response.function_call_arguments.done") by reflexivity.
  assert (Hid : str_field evt "call_id" = "call_1") by reflexivity.
  assert (Hdec : json_Unmarshal_args (resolve_args st evt)
                 = (MultiplyArgs (float64_of_Z 6) (float64_of_Z 7), None))
    by (vm_compute; reflexivity).
  assert (Hsend : sendFunctionOutput (transport := broken_transport) (ws st) "call_1"
                    (result_json (multiply (A (MultiplyArgs (float64_of_Z 6) (float64_of_Z 7)))
                                    (B (MultiplyArgs (float64_of_Z 6) (float64_of_Z 7)))))
                  = ([], Some (Errorf "write error: " (Some (ErrConn "broken pipe")))))
    by (vm_compute; reflexivity).
  split; [exact Ht |]. split; [exact Hid |]. split; [exact Hdec |]. split; [exact Hsend |].
  exact (proj1 (send_failure_ends_cycle (transport := broken_transport) st evt "call_1" _ _ _
                  [Recv completion_event] Ht Hid Hdec Hsend)).
Defined.

(** A greeting cut short by a timeout; the event behind it stays. *)
Lemma returned_text_is_what_was_read_witness :
  stream_run (stream_init ([] : list string) "")
    (greeting_deltas ++ [CtxDone DeadlineExceeded; Recv completion_event])
  = (Returned "Hello! How can I help?" false
       (Some (Errorf "stream timeout: " (Some (ErrContext DeadlineExceeded)))) []
       "Chatbot> Hello! How can I help?",
     [Recv completion_event])
  /\ exists used,
       (greeting_deltas ++ [CtxDone DeadlineExceeded; Recv completion_event])%list
       = (used ++ [Recv completion_event])%list
       /\ "Hello! How can I help?" = concat_all (text_deltas used).
Proof.
  assert (H : stream_run (stream_init ([] : list string) "")
                (greeting_deltas ++ [CtxDone DeadlineExceeded; Recv completion_event])
              = (Returned "Hello! How can I help?" false
                   (Some (Errorf "stream timeout: " (Some (ErrContext DeadlineExceeded)))) []
                   "Chatbot> Hello! How can I help?",
                 [Recv completion_event]))
    by (vm_compute; reflexivity).
  split; [exact H |].
  destruct (returned_text_is_what_was_read _ _ _ _ _ _ _ _ _ H) as (used & Hu & _ & Htext & _).
  exists used. split; [exact Hu | exact Htext].
Defined.

(** A greeting that comes before the acknowledgement is never printed. *)
Lemma turn_drops_early_events_witness :
  Forall (unrelated "conversation.item.created")
    [text_delta_event "Hello"; completion_event]
  /\ run_turn ([] : list string) "" "hi"
       ((Recv <$> [text_delta_event "Hello"; completion_event])
        ++ [Recv ack_event; Recv completion_event]) ErrsNone
     = run_turn [] "" "hi" [Recv ack_event; Recv completion_event] ErrsNone
  /\ exists c, run_turn ([] : list string) "" "hi"
                 [Recv ack_event; Recv completion_event] ErrsNone
               = TurnDone c newline [].
Proof.
  assert (H : Forall (unrelated "conversation.item.created")
                [text_delta_event "Hello"; completion_event])
    by (repeat constructor; discriminate).
  split; [exact H |]. split.
  - exact (turn_drops_early_events [] "" "hi" _ [Recv ack_event; Recv completion_event]
             ErrsNone H).
  - eexists. vm_compute. reflexivity.
Defined.

(** The user says hi and is greeted. *)
Lemma plain_turn_witness :
  let c1 := (sendUserInput ([] : list string) "hi").1 in
  let c2 := (requestTextResponse c1 defaultInstructions).1 in
  sendUserInput [] "hi" = (c1, None)
  /\ Forall (unrelated "conversation.item.created") [session_updated_event]
  /\ has_type ack_event "conversation.item.created"
  /\ requestTextResponse c1 defaultInstructions = (c2, None)
  /\ streamAssistantTextFromChan c2 "" greeting_deltas
     = Streaming (StreamState "Hello! How can I help?" false true ∅ c2
                    "Chatbot> Hello! How can I help?")
  /\ is_completion completion_event
  /\ length c2 = 2
  /\ run_turn [] "" "hi"
       ((Recv <$> [session_updated_event]) ++ Recv ack_event
        :: greeting_deltas ++ Recv completion_event :: [Recv ack_event]) ErrsClosed
     = TurnDone c2 ("Chatbot> Hello! How can I help?" ++ newline ++ newline) [Recv ack_event].
Proof.
  intros c1 c2.
  assert (H1 : sendUserInput [] "hi" = (c1, None)) by reflexivity.
  assert (H2 : Forall (unrelated "conversation.item.created") [session_updated_event])
    by (repeat constructor; discriminate).
  assert (H3 : has_type ack_event "conversation.item.created") by reflexivity.
  assert (H4 : requestTextResponse c1 defaultInstructions = (c2, None)) by reflexivity.
  assert (H5 : streamAssistantTextFromChan c2 "" greeting_deltas
               = Streaming (StreamState "Hello! How can I help?" false true ∅ c2
                              "Chatbot> Hello! How can I help?"))
    by (vm_compute; reflexivity).
  assert (H6 : is_completion completion_event) by (right; reflexivity).
  split; [exact H1 |]. split; [exact H2 |]. split; [exact H3 |]. split; [exact H4 |].
  split; [exact H5 |]. split; [exact H6 |]. split; [reflexivity |].
  exact (plain_turn [] c1 c2 "" "hi" [session_updated_event] ack_event completion_event
           greeting_deltas [Recv ack_event] _ ErrsClosed H1 H2 H3 H4 H5 eq_refl H6
           (or_intror eq_refl)).
Defined.

(** The user asks for 6 times 7: the call is answered, one follow-up
    brings the sentence with the result. *)
Lemma tool_turn_one_follow_up_witness :
  let c1 := (sendUserInput ([] : list string) "6*7").1 in
  let c2 := (requestTextResponse c1 defaultInstructions).1 in
  let c3 := (c2 ++ [output_frame "call_1" "42"])%list in
  let c4 := (requestTextResponse c3 defaultInstructions).1 in
  let body1 := ((Recv <$> six_seven_deltas) ++ [Recv (args_done_bare "call_1")])%list in
  let body2 := [Recv (text_delta_event "6 times 7 is 42.")] in
  sendUserInput [] "6*7" = (c1, None)
  /\ requestTextResponse c1 defaultInstructions = (c2, None)
  /\ streamAssistantTextFromChan c2 "" body1 = Streaming (StreamState "" true false ∅ c3 "")
  /\ requestTextResponse c3 defaultInstructions = (c4, None)
  /\ streamAssistantTextFromChan c4 "" body2
     = Streaming (StreamState "6 times 7 is 42." false true ∅ c4 "Chatbot> 6 times 7 is 42.")
  /\ length c4 = 4
  /\ run_turn [] "" "6*7"
       (Recv ack_event :: body1 ++ Recv completion_event
        :: body2 ++ Recv completion_event :: []) ErrsNone
     = TurnDone c4 ("Chatbot> 6 times 7 is 42." ++ newline ++ newline) [].
Proof.
  intros c1 c2 c3 c4 body1 body2.
  assert (H1 : sendUserInput [] "6*7" = (c1, None)) by reflexivity.
  assert (H2 : Forall (unrelated "conversation.item.created") []) by constructor.
  assert (H3 : has_type ack_event "conversation.item.created") by reflexivity.
  assert (H4 : requestTextResponse c1 defaultInstructions = (c2, None)) by reflexivity.
  assert (H5 : streamAssistantTextFromChan c2 "" body1
               = Streaming (StreamState "" true false ∅ c3 ""))
    by (vm_compute; reflexivity).
  assert (H6 : is_completion completion_event) by (right; reflexivity).
  assert (H7 : requestTextResponse c3 defaultInstructions = (c4, None)) by reflexivity.
  assert (H8 : streamAssistantTextFromChan c4 "" body2
               = Streaming (StreamState "6 times 7 is 42." false true ∅ c4
                              "Chatbot> 6 times 7 is 42."))
    by (vm_compute; reflexivity).
  split; [exact H1 |]. split; [exact H4 |]. split; [exact H5 |]. split; [exact H7 |].
  split; [exact H8 |]. split; [reflexivity |].
  exact (tool_turn_one_follow_up [] c1 c2 c4 "" "6*7" [] ack_event completion_event
           completion_event body1 body2 []
           (StreamState "" true false ∅ c3 "")
           (StreamState "6 times 7 is 42." false true ∅ c4 "Chatbot> 6 times 7 is 42.")
           ErrsNone H1 H2 H3 H4 H5 eq_refl H6 H7 H8 H6 (or_introl eq_refl)).
Defined.


End MoreExamples.
